(** * European call pricing: Monte Carlo simulation against Black-Scholes

    A shallow embedding of [final_project.py] and the properties of its
    four functions, [option_value], [day_by_day_price_simulation],
    [day_by_day_price_simulation_noplot] and [option_price_formula_bs], and
    of the script that calls them.

    Conventions of the embedding.
    - A Python [float] holding a finite number is a real of [R]; Python
      arithmetic on such numbers is real arithmetic (no rounding, no
      overflow), and Python's [/] raises [ZeroDivisionError] on a zero
      divisor.
    - A value computed by numpy ([np.sqrt], [np.log], [np.exp], the draw of
      [np.random.standard_normal], and everything combined with one) is a
      [float64]: a real, an infinity or not-a-number.  Numpy never raises on
      such values: [1 / 0.0] is [inf], [inf * 0] is [nan].  Signed zeros are
      not told apart (a zero is [+0]); a one-element array is identified with
      its element.
    - The interpreter state is explicit: the contract object the [option]
      argument refers to, the global random generator (the sequence of
      variates it will deliver and how many were consumed), the mutable lists
      of the running call, and the matplotlib figure.  Calls are functions
      from a state to a result (a value or a raised exception) and a state. *)

From Stdlib Require Import String.
From Stdlib Require Import Reals Lra Lia List ZArith Bool.
Import ListNotations.

Open Scope R_scope.

(** ** Numbers *)

Inductive float64 : Type :=
| Fin (r : R)
| PInf
| NInf
| NaN.

(** [inf] multiplied by a finite number of the sign of [r]. *)
Definition signed_inf (r : R) : float64 :=
  if Rlt_dec 0 r then PInf else if Rlt_dec r 0 then NInf else NaN.

Definition fneg (x : float64) : float64 :=
  match x with
  | Fin a => Fin (- a)
  | PInf => NInf
  | NInf => PInf
  | NaN => NaN
  end.

Definition fadd (x y : float64) : float64 :=
  match x, y with
  | Fin a, Fin b => Fin (a + b)
  | NaN, _ | _, NaN => NaN
  | PInf, NInf | NInf, PInf => NaN
  | PInf, _ | _, PInf => PInf
  | NInf, _ | _, NInf => NInf
  end.

Definition fsub (x y : float64) : float64 := fadd x (fneg y).

Definition fmul (x y : float64) : float64 :=
  match x, y with
  | Fin a, Fin b => Fin (a * b)
  | NaN, _ | _, NaN => NaN
  | Fin a, PInf | PInf, Fin a => signed_inf a
  | Fin a, NInf | NInf, Fin a => signed_inf (- a)
  | PInf, PInf | NInf, NInf => PInf
  | PInf, NInf | NInf, PInf => NInf
  end.

(** Numpy's true division: a zero divisor gives an infinity or [nan]. *)
Definition np_div (x y : float64) : float64 :=
  match x, y with
  | Fin a, Fin b => if Req_dec_T b 0 then signed_inf a else Fin (a / b)
  | NaN, _ | _, NaN => NaN
  | Fin _, _ => Fin 0
  | PInf, Fin b => if Rlt_dec b 0 then NInf else PInf
  | NInf, Fin b => if Rlt_dec b 0 then PInf else NInf
  | _, _ => NaN
  end.

(** [x > y]; every comparison with [nan] is false. *)
Definition fgt (x y : float64) : bool :=
  match x, y with
  | Fin a, Fin b => if Rlt_dec b a then true else false
  | NaN, _ | _, NaN => false
  | PInf, PInf | NInf, NInf => false
  | PInf, _ | _, NInf => true
  | _, _ => false
  end.

Definition np_sqrt (x : R) : float64 :=
  if Rlt_dec x 0 then NaN else Fin (sqrt x).

Definition np_log (x : R) : float64 :=
  if Rlt_dec 0 x then Fin (ln x) else if Rlt_dec x 0 then NaN else NInf.

Definition np_exp (x : float64) : float64 :=
  match x with
  | Fin a => Fin (exp a)
  | PInf => PInf
  | NInf => Fin 0
  | NaN => NaN
  end.

(** [int(x)] on a float: truncation towards zero. *)
Definition py_int (x : R) : Z :=
  if Rle_dec 0 x then Int_part x else (- Int_part (- x))%Z.

(** Python's [sum]: starts from [0] and adds from the left. *)
Definition py_sum (l : list float64) : float64 :=
  fold_left fadd l (Fin 0).

(** [np.mean] of a list: [nan] on the empty list. *)
Definition np_mean (l : list float64) : float64 :=
  np_div (py_sum l) (Fin (INR (length l))).

(** The density and the distribution function of the standard normal law,
    the function [scipy.stats.norm.cdf] computes. *)
Definition normal_pdf (t : R) : R := exp (- (t * t) / 2) / sqrt (2 * PI).

Definition normal_pdf_integrable (a b : R) : Riemann_integrable normal_pdf a b.
Proof.
  assert (C : forall x : R, continuity_pt normal_pdf x).
  { intro x. unfold normal_pdf.
    assert (H : sqrt (2 * PI) <> 0).
    { apply Rgt_not_eq, sqrt_lt_R0. generalize PI_RGT_0. lra. }
    reg. }
  destruct (Rle_dec a b) as [Hab | Hab].
  - apply continuity_implies_RiemannInt; [exact Hab | intros x _; apply C].
  - apply RiemannInt_P1, continuity_implies_RiemannInt; [lra | intros x _; apply C].
Qed.

Definition Phi (x : R) : R := 1 / 2 + RiemannInt (normal_pdf_integrable 0 x).

Definition norm_cdf (x : float64) : float64 :=
  match x with
  | Fin a => Fin (Phi a)
  | PInf => Fin 1
  | NInf => Fin 0
  | NaN => NaN
  end.

(** ** The contract *)

Record option_attributes : Type := {
  underlying_price : R;
  strike_price : R;
  risk_free_rate : R;
  vol : R;
  time_left : R
}.

(** ** The payoff *)

(** [max(S - strike_price, 0.0)]: Python's [max] keeps its first argument
    unless the second is greater. *)
Definition option_value (S : float64) (strike_price : R) : float64 :=
  let d := fsub S (Fin strike_price) in
  if fgt (Fin 0) d then Fin 0 else d.

(** ** State, exceptions and the call monad *)

Inductive exn : Type :=
| ZeroDivisionError
| IndexError
| ValueError.

Inductive res (A : Type) : Type :=
| Ok (a : A)
| Raise (e : exn).
Arguments Ok {A} a.
Arguments Raise {A} e.

Inductive plot_cmd : Type :=
| Line (xs : list Z) (ys : list float64) (color : option string)
| Title (s : string)
| XLabel (s : string)
| YLabel (s : string).

Record world : Type := {
  opt : option_attributes;
  gen : nat -> R;
  drawn : nat;
  returns : list (list float64);
  final_value : list float64;
  full_at_ind : list float64;
  avg_list : list float64;
  figure : list plot_cmd;
  shown : list (list plot_cmd)
}.

Definition set_opt (o : option_attributes) (w : world) : world :=
  Build_world o (gen w) (drawn w) (returns w) (final_value w)
              (full_at_ind w) (avg_list w) (figure w) (shown w).
Definition set_drawn (n : nat) (w : world) : world :=
  Build_world (opt w) (gen w) n (returns w) (final_value w)
              (full_at_ind w) (avg_list w) (figure w) (shown w).
Definition set_returns (r : list (list float64)) (w : world) : world :=
  Build_world (opt w) (gen w) (drawn w) r (final_value w)
              (full_at_ind w) (avg_list w) (figure w) (shown w).
Definition set_final_value (l : list float64) (w : world) : world :=
  Build_world (opt w) (gen w) (drawn w) (returns w) l
              (full_at_ind w) (avg_list w) (figure w) (shown w).
Definition set_full_at_ind (l : list float64) (w : world) : world :=
  Build_world (opt w) (gen w) (drawn w) (returns w) (final_value w)
              l (avg_list w) (figure w) (shown w).
Definition set_avg_list (l : list float64) (w : world) : world :=
  Build_world (opt w) (gen w) (drawn w) (returns w) (final_value w)
              (full_at_ind w) l (figure w) (shown w).
Definition set_figure (f : list plot_cmd) (w : world) : world :=
  Build_world (opt w) (gen w) (drawn w) (returns w) (final_value w)
              (full_at_ind w) (avg_list w) f (shown w).
Definition set_shown (s : list (list plot_cmd)) (w : world) : world :=
  Build_world (opt w) (gen w) (drawn w) (returns w) (final_value w)
              (full_at_ind w) (avg_list w) (figure w) s.

Definition M (A : Type) : Type := world -> res A * world.

Definition ret {A} (a : A) : M A := fun w => (Ok a, w).

Definition raise {A} (e : exn) : M A := fun w => (Raise e, w).

Definition bind {A B} (m : M A) (k : A -> M B) : M B :=
  fun w =>
    match m w with
    | (Ok a, w') => k a w'
    | (Raise e, w') => (Raise e, w')
    end.

Notation "x <- m ;; k" := (bind m (fun x => k))
  (at level 61, m at next level, right associativity).
Notation "m ;;; k" := (bind m (fun _ => k))
  (at level 61, right associativity).

Definition gets {A} (f : world -> A) : M A := fun w => (Ok (f w), w).

Definition modify (f : world -> world) : M unit := fun w => (Ok tt, f w).

(** [option.field] *)
Definition attr (f : option_attributes -> R) : M R := gets (fun w => f (opt w)).

(** [option_attributes(...)]: [__init__] sets the five fields. *)
Definition new_option_attributes
    (underlying_price strike_price risk_free_rate vol time_left : R) : M unit :=
  modify (set_opt (Build_option_attributes underlying_price strike_price
                                           risk_free_rate vol time_left)).

(** [range(lo, hi)] *)
Fixpoint range_from (lo : Z) (n : nat) : list Z :=
  match n with
  | O => []
  | S n' => lo :: range_from (lo + 1) n'
  end.

Definition range (lo hi : Z) : list Z := range_from lo (Z.to_nat (hi - lo)).

Fixpoint for_each {A} (xs : list A) (body : A -> M unit) : M unit :=
  match xs with
  | [] => ret tt
  | x :: xs' => body x ;;; for_each xs' body
  end.

(** [l[i]], negative indexes counting from the end. *)
Definition norm_index {A} (l : list A) (i : Z) : option nat :=
  let n := Z.of_nat (length l) in
  let k := if (i <? 0)%Z then (i + n)%Z else i in
  if ((0 <=? k) && (k <? n))%Z then Some (Z.to_nat k) else None.

Definition getitem {A} (l : list A) (i : Z) : M A :=
  match norm_index l i with
  | Some k =>
      match nth_error l k with
      | Some x => ret x
      | None => raise IndexError
      end
  | None => raise IndexError
  end.

Fixpoint list_update {A} (l : list A) (k : nat) (x : A) : list A :=
  match l, k with
  | [], _ => []
  | _ :: t, O => x :: t
  | h :: t, S k' => h :: list_update t k' x
  end.

(** [np.random.standard_normal(1)] *)
Definition standard_normal : M float64 :=
  fun w => (Ok (Fin (gen w (drawn w))), set_drawn (S (drawn w)) w).

(** [returns.append(row)] *)
Definition returns_append (row : list float64) : M unit :=
  modify (fun w => set_returns (returns w ++ [row]) w).

(** [returns[j]] *)
Definition returns_row (j : Z) : M (list float64) :=
  rs <- gets returns ;; getitem rs j.

(** [returns[j][i]] *)
Definition returns_at (j i : Z) : M float64 :=
  row <- returns_row j ;; getitem row i.

(** [returns[j].append(x)] *)
Definition returns_row_append (j : Z) (x : float64) : M unit :=
  rs <- gets returns ;;
  match norm_index rs j with
  | Some k =>
      match nth_error rs k with
      | Some row => modify (set_returns (list_update rs k (row ++ [x])))
      | None => raise IndexError
      end
  | None => raise IndexError
  end.

Definition final_value_append (x : float64) : M unit :=
  modify (fun w => set_final_value (final_value w ++ [x]) w).

Definition full_at_ind_append (x : float64) : M unit :=
  modify (fun w => set_full_at_ind (full_at_ind w ++ [x]) w).

Definition avg_list_append (x : float64) : M unit :=
  modify (fun w => set_avg_list (avg_list w ++ [x]) w).

(** [plt.plot(xs, ys, color = c)]: the two sequences must be equally long. *)
Definition plt_plot (xs : list Z) (ys : list float64) (c : option string) : M unit :=
  if Nat.eqb (length xs) (length ys)
  then modify (fun w => set_figure (figure w ++ [Line xs ys c]) w)
  else raise ValueError.

Definition plt_decorate (c : plot_cmd) : M unit :=
  modify (fun w => set_figure (figure w ++ [c]) w).

Definition plt_show : M unit :=
  modify (fun w => set_figure [] (set_shown (shown w ++ [figure w]) w)).

(** Python's [a / b] on numbers, for an integer divisor [b]. *)
Definition py_div_int (a : R) (b : Z) : M R :=
  if (b =? 0)%Z then raise ZeroDivisionError else ret (a / IZR b).

(** [total / float(n)]: a zero divisor raises (the total is then the
    integer [0] of an empty [sum]). *)
Definition py_div_float (total : float64) (n : Z) : M float64 :=
  if (n =? 0)%Z then raise ZeroDivisionError else ret (np_div total (Fin (IZR n))).

(** ** The Monte Carlo simulators *)

(** [day_by_day_price_simulation(option, path_count)], lines 43-91; the
    contract is the object [opt] of the state. *)
Definition day_by_day_price_simulation (path_count : Z) : M float64 :=
  S_initial <- attr underlying_price ;;
  strike <- attr strike_price ;;
  time <- attr time_left ;;
  rate <- attr risk_free_rate ;;
  sigma <- attr vol ;;
  let step_num := py_int (time * 252) in
  interval <- py_div_int time step_num ;;
  modify (set_returns []) ;;;
  modify (set_final_value []) ;;;
  let x_ax := range 0 (step_num + 1) in
  for_each (range 0 path_count) (fun j =>
    returns_append [Fin S_initial] ;;;
    for_each (range 1 (step_num + 1)) (fun i =>
      epsilon <- standard_normal ;;
      prev <- returns_at j (i - 1) ;;
      let next_price :=
        fmul prev
             (np_exp (fadd (Fin ((rate - 0.5 * sigma ^ 2) * interval))
                           (fmul (fmul (Fin sigma) (np_sqrt interval)) epsilon))) in
      returns_row_append j next_price) ;;;
    row <- returns_row j ;;
    plt_plot x_ax row None ;;;
    last <- returns_at j (-1) ;;
    final_value_append (option_value last strike)) ;;;
  plt_decorate (Title "Paths of All Simulations") ;;;
  plt_decorate (XLabel "Number of Days From Start") ;;;
  plt_decorate (YLabel "Underlying Asset Price") ;;;
  plt_show ;;;
  row4 <- returns_row 4 ;;
  plt_plot x_ax row4 (Some "black"%string) ;;;
  plt_decorate (Title "Path of Single Simulation") ;;;
  plt_decorate (XLabel "Number of Days From Start") ;;;
  plt_decorate (YLabel "Underlying Asset Price") ;;;
  plt_show ;;;
  modify (set_avg_list []) ;;;
  for_each (range 0 (step_num + 1)) (fun i =>
    modify (set_full_at_ind []) ;;;
    for_each (range 0 path_count) (fun j =>
      x <- returns_at j i ;;
      full_at_ind_append x) ;;;
    full <- gets full_at_ind ;;
    avg_list_append (np_mean full)) ;;;
  for_each (range 0 10) (fun j =>
    row <- returns_row j ;;
    plt_plot x_ax row None) ;;;
  plt_decorate (Title "Path of Ten Simulations") ;;;
  plt_decorate (XLabel "Number of Days From Start") ;;;
  plt_decorate (YLabel "Underlying Asset Price") ;;;
  plt_show ;;;
  rate' <- attr risk_free_rate ;;
  time' <- attr time_left ;;
  payoffs <- gets final_value ;;
  average <- py_div_float (py_sum payoffs) path_count ;;
  ret (fmul (Fin (exp (- rate' * time'))) average).

(** [day_by_day_price_simulation_noplot(option, path_count)], lines 99-122. *)
Definition day_by_day_price_simulation_noplot (path_count : Z) : M float64 :=
  S_initial <- attr underlying_price ;;
  strike <- attr strike_price ;;
  time <- attr time_left ;;
  rate <- attr risk_free_rate ;;
  sigma <- attr vol ;;
  let step_num := py_int (time * 252) in
  interval <- py_div_int time step_num ;;
  modify (set_returns []) ;;;
  modify (set_final_value []) ;;;
  let x_ax := range 0 (step_num + 1) in
  for_each (range 0 path_count) (fun j =>
    returns_append [Fin S_initial] ;;;
    for_each (range 1 (step_num + 1)) (fun i =>
      epsilon <- standard_normal ;;
      prev <- returns_at j (i - 1) ;;
      let next_price :=
        fmul prev
             (np_exp (fadd (Fin ((rate - 0.5 * sigma ^ 2) * interval))
                           (fmul (fmul (Fin sigma) (np_sqrt interval)) epsilon))) in
      returns_row_append j next_price) ;;;
    last <- returns_at j (-1) ;;
    final_value_append (option_value last strike)) ;;;
  rate' <- attr risk_free_rate ;;
  time' <- attr time_left ;;
  payoffs <- gets final_value ;;
  average <- py_div_float (py_sum payoffs) path_count ;;
  ret (fmul (Fin (exp (- rate' * time'))) average).

(** ** The Black-Scholes formula *)

(** [a / b] on two Python numbers. *)
Definition py_div (a b : R) : M R :=
  if Req_dec_T b 0 then raise ZeroDivisionError else ret (a / b).

(** [option_price_formula_bs(option)], lines 129-141. *)
Definition option_price_formula_bs : M float64 :=
  sigma1 <- attr vol ;;
  time1 <- attr time_left ;;
  S1 <- attr underlying_price ;;
  K1 <- attr strike_price ;;
  m1 <- py_div S1 K1 ;;
  rate1 <- attr risk_free_rate ;;
  let d1 :=
    fmul (np_div (Fin 1) (fmul (Fin sigma1) (np_sqrt time1)))
         (fadd (np_log m1) (Fin ((rate1 + 0.5 * sigma1 ^ 2) * time1))) in
  sigma2 <- attr vol ;;
  time2 <- attr time_left ;;
  S2 <- attr underlying_price ;;
  K2 <- attr strike_price ;;
  m2 <- py_div S2 K2 ;;
  rate2 <- attr risk_free_rate ;;
  let d2 :=
    fmul (np_div (Fin 1) (fmul (Fin sigma2) (np_sqrt time2)))
         (fadd (np_log m2) (Fin ((rate2 - 0.5 * sigma2 ^ 2) * time2))) in
  S3 <- attr underlying_price ;;
  K3 <- attr strike_price ;;
  rate3 <- attr risk_free_rate ;;
  time3 <- attr time_left ;;
  ret (fsub (fmul (Fin S3) (norm_cdf d1))
            (fmul (fmul (Fin K3) (np_exp (Fin (- rate3 * time3)))) (norm_cdf d2))).

(** ** The specification's vocabulary *)

(** [step_count = floor(time_to_maturity * 252)] and [dt]. *)
Definition step_count (o : option_attributes) : Z := Int_part (time_left o * 252).

Definition dt (o : option_attributes) : R := time_left o / IZR (step_count o).

(** One step of geometric Brownian motion: the factor
    [exp((r - 0.5 sigma^2) dt + sigma sqrt(dt) eps)]. *)
Definition growth (o : option_attributes) (eps : R) : R :=
  exp ((risk_free_rate o - 0.5 * vol o ^ 2) * dt o + vol o * sqrt (dt o) * eps).

(** The product of [f 1 ... f n]. *)
Fixpoint product (n : nat) (f : nat -> R) : R :=
  match n with
  | O => 1
  | S n' => product n' f * f (S n')
  end.

(** The draw used by trial [j] (from 0) at step [i] (from 1), for a
    generator delivering [g] of which [d] variates were already consumed. *)
Definition draw (g : nat -> R) (d n : nat) (j i : nat) : R :=
  g (d + j * n + (i - 1))%nat.

(** The price of trial [j] after [i] steps, and its terminal price. *)
Definition price_at (o : option_attributes) (eps : nat -> nat -> R) (j i : nat) : R :=
  underlying_price o * product i (fun t => growth o (eps j t)).

Definition terminal (o : option_attributes) (eps : nat -> nat -> R) (j : nat) : R :=
  price_at o eps j (Z.to_nat (step_count o)).

Definition payoff (S K : R) : R := Rmax (S - K) 0.

Definition Rsum (l : list R) : R := fold_right Rplus 0 l.

Definition mean (l : list R) : R := Rsum l / INR (length l).

Definition path_of (o : option_attributes) (eps : nat -> nat -> R) (j : nat) : list R :=
  map (price_at o eps j) (seq 0 (S (Z.to_nat (step_count o)))).

Definition payoffs_of (o : option_attributes) (eps : nat -> nat -> R) (m : nat) : list R :=
  map (fun j => payoff (terminal o eps j) (strike_price o)) (seq 0 m).

(** [e^(-rT) * mean(payoffs)] over [m] trials. *)
Definition discounted_mean_payoff
    (o : option_attributes) (eps : nat -> nat -> R) (m : nat) : R :=
  exp (- risk_free_rate o * time_left o) * mean (payoffs_of o eps m).

(** The closed form of Black and Scholes. *)
Definition bs_d1 (o : option_attributes) : R :=
  (ln (underlying_price o / strike_price o)
   + (risk_free_rate o + 0.5 * vol o ^ 2) * time_left o)
  / (vol o * sqrt (time_left o)).

Definition bs_d2 (o : option_attributes) : R :=
  (ln (underlying_price o / strike_price o)
   + (risk_free_rate o - 0.5 * vol o ^ 2) * time_left o)
  / (vol o * sqrt (time_left o)).

Definition black_scholes_call (o : option_attributes) : R :=
  underlying_price o * Phi (bs_d1 o)
  - strike_price o * exp (- risk_free_rate o * time_left o) * Phi (bs_d2 o).

(** The number that lines 131-140 compute once the quotient of the two
    prices exists. *)
Definition bs_float (o : option_attributes) : float64 :=
  let inv := np_div (Fin 1) (fmul (Fin (vol o)) (np_sqrt (time_left o))) in
  let lg := np_log (underlying_price o / strike_price o) in
  let d1 := fmul inv (fadd lg (Fin ((risk_free_rate o + 0.5 * vol o ^ 2) * time_left o))) in
  let d2 := fmul inv (fadd lg (Fin ((risk_free_rate o - 0.5 * vol o ^ 2) * time_left o))) in
  fsub (fmul (Fin (underlying_price o)) (norm_cdf d1))
       (fmul (fmul (Fin (strike_price o))
                   (np_exp (Fin (- risk_free_rate o * time_left o))))
             (norm_cdf d2)).

(** ** Outcomes of calls *)

(** A call from state [w] ends with result [r] in a state that satisfies [Q]. *)
Definition outcome {A} (m : M A) (w : world) (r : res A) (Q : world -> Prop) : Prop :=
  exists w', m w = (r, w') /\ Q w'.

(** Two states agree on the contract, the generator, the paths and the
    payoffs; the figure and the scratch lists of the averages may differ. *)
Definition same_core (w w' : world) : Prop :=
  opt w' = opt w /\ gen w' = gen w /\ drawn w' = drawn w /\
  returns w' = returns w /\ final_value w' = final_value w.

(** A call that leaves the contract object as it found it, however it ends. *)
Definition keeps_opt {A} (m : M A) : Prop := forall w, opt (snd (m w)) = opt w.

(** A list of paths as the simulators leave it: [m] paths, each of
    [step_count + 1] prices, the first of them the price of the underlying. *)
Definition paths_complete
    (o : option_attributes) (m : nat) (paths : list (list float64)) : Prop :=
  length paths = m /\
  forall path, In path paths ->
    length path = S (Z.to_nat (step_count o)) /\
    nth_error path 0 = Some (Fin (underlying_price o)).

(** ** Sample contracts and states *)

(** The contract of the specification's example, one too short for a single
    trading day, and one at its maturity. *)
Definition sample_option : option_attributes :=
  Build_option_attributes 1200 1220 0.0014 0.2121 0.1616.

Definition short_option : option_attributes :=
  Build_option_attributes 1200 1220 0.0014 0.2121 0.001.

Definition expiring_option : option_attributes :=
  Build_option_attributes 1200 1220 0.0014 0.2121 0.

(** A generator that always delivers [0], and the state of a fresh run. *)
Definition no_noise : nat -> R := fun _ => 0.

Definition start (o : option_attributes) (g : nat -> R) : world :=
  Build_world o g 0 [] [] [] [] [] [].

(** A call that leaves the figure and the figures already shown as it
    found them, and one that leaves the whole state. *)
Definition keeps_plots {A} (m : M A) : Prop :=
  forall w, figure (snd (m w)) = figure w /\ shown (snd (m w)) = shown w.

Definition reads_only {A} (m : M A) : Prop := forall w, snd (m w) = w.

(** A state reached in the rendering part of the plotting simulator: the
    paths and payoffs of [w0], the figure [F] under construction, and the
    figures [Sh] already shown. *)
Definition at_stage
    (w0 : world) (F : list plot_cmd) (Sh : list (list plot_cmd)) (w : world) : Prop :=
  same_core w0 w /\ figure w = F /\ shown w = Sh.

(** The three labels every figure of the simulator gets. *)
Definition labels (title : string) : list plot_cmd :=
  [Title title; XLabel "Number of Days From Start"; YLabel "Underlying Asset Price"].

(** ** The script (lines 147-175) *)

(** [datetime.date] and the day count of a difference of two dates: the
    proleptic Gregorian ordinal, as [date.toordinal] computes it. *)
Record date : Type := { year : Z; month : Z; day : Z }.

Definition is_leap (y : Z) : bool :=
  ((y mod 4 =? 0) && (negb (y mod 100 =? 0) || (y mod 400 =? 0)))%Z.

Definition days_before_year (y : Z) : Z :=
  (let p := y - 1 in p * 365 + p / 4 - p / 100 + p / 400)%Z.

Definition days_before_month (y m : Z) : Z :=
  (nth (Z.to_nat m) [0; 0; 31; 59; 90; 120; 151; 181; 212; 243; 273; 304; 334] 0
   + (if (2 <? m) && is_leap y then 1 else 0))%Z.

Definition toordinal (d : date) : Z :=
  (days_before_year (year d) + days_before_month (year d) (month d) + day d)%Z.

(** [(a - b).days] *)
Definition days_between (a b : date) : Z := (toordinal a - toordinal b)%Z.

(** What [print] writes: a string or a number. *)
Inductive printed : Type :=
| PStr (s : string)
| PNum (x : float64).

(** The state of the script: the state of the functions, the standard
    output, and the list [opt_price_diff]. *)
Record session : Type := {
  heap : world;
  stdout : list printed;
  opt_price_diff : list float64
}.

Definition P (A : Type) : Type := session -> res A * session.

Definition pret {A} (a : A) : P A := fun s => (Ok a, s).

Definition pbind {A B} (m : P A) (k : A -> P B) : P B :=
  fun s =>
    match m s with
    | (Ok a, s') => k a s'
    | (Raise e, s') => (Raise e, s')
    end.

Declare Scope script_scope.
Delimit Scope script_scope with script.
Notation "x <- m ;; k" := (pbind m (fun x => k))
  (at level 61, m at next level, right associativity) : script_scope.
Notation "m ;;; k" := (pbind m (fun _ => k))
  (at level 61, right associativity) : script_scope.

(** A call of one of the functions from the script. *)
Definition lift {A} (m : M A) : P A :=
  fun s =>
    let (r, w') := m (heap s) in
    (r, Build_session w' (stdout s) (opt_price_diff s)).

Definition print (x : printed) : P unit :=
  fun s => (Ok tt, Build_session (heap s) (stdout s ++ [x]) (opt_price_diff s)).

Definition set_opt_price_diff (l : list float64) : P unit :=
  fun s => (Ok tt, Build_session (heap s) (stdout s) l).

Definition opt_price_diff_append (x : float64) : P unit :=
  fun s => (Ok tt, Build_session (heap s) (stdout s) (opt_price_diff s ++ [x])).

Fixpoint pfor_each {A} (xs : list A) (body : A -> P unit) : P unit :=
  match xs with
  | [] => pret tt
  | x :: xs' => pbind (body x) (fun _ => pfor_each xs' body)
  end.

Definition path_count_list : list Z :=
  [100; 200; 300; 400; 500; 600; 700; 800; 900; 1000;
   1250; 1500; 1750; 2000; 2250; 2500; 2750; 3000]%Z.

(** The contract of line 147. *)
Definition test_option : option_attributes :=
  Build_option_attributes 1200 1220 0.0014 0.2121
    (IZR (days_between (Build_date 2014 7 3) (Build_date 2014 5 5)) / 365).

Definition script : P unit :=
  (lift (new_option_attributes 1200 1220 0.0014 0.2121
           (IZR (days_between (Build_date 2014 7 3) (Build_date 2014 5 5)) / 365)) ;;;
   print (PStr "Price Returned from Black-Scholes") ;;;
   p <- lift option_price_formula_bs ;;
   print (PNum p) ;;;
   print (PStr "Price Returned from Computational Simulation") ;;;
   p <- lift (day_by_day_price_simulation 1000) ;;
   print (PNum p) ;;;
   set_opt_price_diff [] ;;;
   bs_price <- lift option_price_formula_bs ;;
   pfor_each path_count_list (fun k =>
     p <- lift (day_by_day_price_simulation_noplot k) ;;
     opt_price_diff_append (fsub p bs_price)) ;;;
   diffs <- (fun s => (Ok (opt_price_diff s), s)) ;;
   lift (plt_plot path_count_list diffs (Some "black"%string)) ;;;
   lift (plt_decorate
           (Title "Testing the Accuracy of the Monte Carlo Model Against Black-Scholes")) ;;;
   lift (plt_decorate (YLabel "Difference Between Model Prices")) ;;;
   lift (plt_decorate (XLabel "Number of Simulated Paths")) ;;;
   lift plt_show)%script.

Definition Zsum (l : list Z) : Z := fold_right Z.add 0%Z l.

Definition finite (x : float64) : Prop := exists r, x = Fin r.

(** ** Reasoning about calls *)

Lemma bind_ok {A B} (m : M A) (k : A -> M B) w a w1 :
  m w = (Ok a, w1) -> bind m k w = k a w1.
Proof. unfold bind. intros ->. reflexivity. Qed.

Lemma bind_raise {A B} (m : M A) (k : A -> M B) w e w1 :
  m w = (Raise e, w1) -> bind m k w = (Raise e, w1).
Proof. unfold bind. intros ->. reflexivity. Qed.

(** A loop whose body keeps an invariant indexed by the iteration runs to
    its end. *)
Lemma for_each_ok {A} (I : nat -> world -> Prop) (xs : list A) body :
  forall w,
    I O w ->
    (forall k x w1, nth_error xs k = Some x -> I k w1 ->
                    exists w2, body x w1 = (Ok tt, w2) /\ I (S k) w2) ->
    exists w', for_each xs body w = (Ok tt, w') /\ I (length xs) w'.
Proof.
  revert I. induction xs as [| x xs IH]; intros I w H0 Hstep; simpl.
  - exists w. split; [reflexivity | exact H0].
  - destruct (Hstep O x w eq_refl H0) as (w2 & Hb & H1).
    destruct (IH (fun k => I (S k)) w2 H1) as (w' & Hr & Hend).
    { intros k y w1 Hy Hk. apply (Hstep (S k) y w1 Hy Hk). }
    exists w'. split; [| exact Hend].
    rewrite (bind_ok _ _ _ _ _ Hb). exact Hr.
Qed.

(** A loop that runs a prefix under an invariant and whose next body raises
    stops there with that exception. *)
Lemma for_each_raise {A} (I : nat -> world -> Prop) (Q : world -> Prop)
      (pre : list A) (x : A) (post : list A) body e :
  forall w,
    I O w ->
    (forall k y w1, nth_error pre k = Some y -> I k w1 ->
                    exists w2, body y w1 = (Ok tt, w2) /\ I (S k) w2) ->
    (forall w1, I (length pre) w1 ->
                exists w2, body x w1 = (Raise e, w2) /\ Q w2) ->
    exists w', for_each (pre ++ x :: post) body w = (Raise e, w') /\ Q w'.
Proof.
  revert I. induction pre as [| y pre IH]; intros I w H0 Hstep Hfail; simpl.
  - destruct (Hfail w H0) as (w2 & Hb & HQ).
    exists w2. split; [| exact HQ]. apply bind_raise. exact Hb.
  - destruct (Hstep O y w eq_refl H0) as (w2 & Hb & H1).
    destruct (IH (fun k => I (S k)) w2 H1) as (w' & Hr & HQ).
    { intros k z w1 Hz Hk. apply (Hstep (S k) z w1 Hz Hk). }
    { intros w1 Hw1. apply Hfail. exact Hw1. }
    exists w'. split; [| exact HQ].
    rewrite (bind_ok _ _ _ _ _ Hb). exact Hr.
Qed.

(** ** Ranges and indexing *)

Lemma range_from_length lo n : length (range_from lo n) = n.
Proof. revert lo. induction n; intro lo; simpl; [reflexivity | now rewrite IHn]. Qed.

Lemma range_from_nth lo n k :
  (k < n)%nat -> nth_error (range_from lo n) k = Some (lo + Z.of_nat k)%Z.
Proof.
  revert lo k. induction n as [| n IH]; intros lo k Hk; [lia |].
  destruct k as [| k]; simpl.
  - f_equal. lia.
  - rewrite IH by lia. f_equal. lia.
Qed.

Lemma range_from_nth_inv lo n k x :
  nth_error (range_from lo n) k = Some x -> (k < n)%nat /\ x = (lo + Z.of_nat k)%Z.
Proof.
  intro H.
  assert (Hk : (k < n)%nat).
  { rewrite <- (range_from_length lo n). apply nth_error_Some. congruence. }
  split; [exact Hk |]. rewrite (range_from_nth lo n k Hk) in H. congruence.
Qed.

Lemma range_from_app lo n m :
  range_from lo (n + m) = range_from lo n ++ range_from (lo + Z.of_nat n) m.
Proof.
  revert lo. induction n as [| n IH]; intro lo; simpl.
  - f_equal. lia.
  - rewrite IH. do 3 f_equal. lia.
Qed.

Lemma range_nonpos lo hi : (hi <= lo)%Z -> range lo hi = [].
Proof. intro H. unfold range. replace (Z.to_nat (hi - lo)) with O by lia. reflexivity. Qed.

Lemma norm_index_nat {A} (l : list A) (k : nat) :
  (k < length l)%nat -> norm_index l (Z.of_nat k) = Some k.
Proof.
  intro H. unfold norm_index.
  replace (Z.of_nat k <? 0)%Z with false by (symmetry; apply Z.ltb_ge; lia).
  replace (0 <=? Z.of_nat k)%Z with true by (symmetry; apply Z.leb_le; lia).
  replace (Z.of_nat k <? Z.of_nat (length l))%Z with true
    by (symmetry; apply Z.ltb_lt; lia).
  simpl. now rewrite Nat2Z.id.
Qed.

Lemma norm_index_last {A} (l : list A) :
  l <> [] -> norm_index l (-1) = Some (length l - 1)%nat.
Proof.
  intro H. assert (0 < length l)%nat by (destruct l; simpl; [congruence | lia]).
  unfold norm_index. change (-1 <? 0)%Z with true. cbv iota.
  replace (0 <=? -1 + Z.of_nat (length l))%Z with true by (symmetry; apply Z.leb_le; lia).
  replace (-1 + Z.of_nat (length l) <? Z.of_nat (length l))%Z with true
    by (symmetry; apply Z.ltb_lt; lia).
  cbn [andb]. f_equal. lia.
Qed.

Lemma norm_index_beyond {A} (l : list A) (i : Z) :
  (Z.of_nat (length l) <= i)%Z -> norm_index l i = None.
Proof.
  intro H. unfold norm_index.
  replace (i <? 0)%Z with false by (symmetry; apply Z.ltb_ge; lia).
  replace (i <? Z.of_nat (length l))%Z with false by (symmetry; apply Z.ltb_ge; lia).
  now rewrite andb_false_r.
Qed.

Lemma getitem_nth {A} (l : list A) (k : nat) (x : A) w :
  nth_error l k = Some x -> getitem l (Z.of_nat k) w = (Ok x, w).
Proof.
  intro H. unfold getitem.
  rewrite norm_index_nat by (apply nth_error_Some; congruence).
  now rewrite H.
Qed.

Lemma getitem_last {A} (l : list A) (x : A) w :
  getitem (l ++ [x]) (-1) w = (Ok x, w).
Proof.
  unfold getitem. rewrite norm_index_last by (destruct l; discriminate).
  rewrite length_app. simpl.
  replace (length l + 1 - 1)%nat with (length l) by lia.
  rewrite nth_error_app2 by lia. now rewrite Nat.sub_diag.
Qed.

Lemma getitem_beyond {A} (l : list A) (i : Z) w :
  (Z.of_nat (length l) <= i)%Z -> getitem l i w = (@Raise A IndexError, w).
Proof. intro H. unfold getitem. now rewrite norm_index_beyond. Qed.

Lemma list_update_last {A} (l : list A) (x y : A) :
  list_update (l ++ [x]) (length l) y = l ++ [y].
Proof. induction l as [| h t IH]; simpl; [reflexivity | now rewrite IH]. Qed.

Lemma seq_snoc (m : nat) : seq 0 (S m) = seq 0 m ++ [m].
Proof. rewrite seq_S. reflexivity. Qed.

Lemma nth_error_seq_map {A} (f : nat -> A) (m k : nat) :
  (k < m)%nat -> nth_error (map f (seq 0 m)) k = Some (f k).
Proof.
  intro H. rewrite nth_error_map, nth_error_seq.
  destruct (Nat.ltb_spec k m); [reflexivity | lia].
Qed.

(** ** Floor, truncation and the step count *)

Lemma py_int_floor (x : R) : 0 <= x -> py_int x = Int_part x.
Proof. intro H. unfold py_int. destruct (Rle_dec 0 x); [reflexivity | contradiction]. Qed.

Lemma Int_part_nonneg (x : R) : (0 <= Int_part x)%Z -> 0 <= x.
Proof.
  intro H. destruct (base_Int_part x) as [Hlo _].
  apply IZR_le in H. lra.
Qed.

Lemma Int_part_zero (x : R) : Int_part x = 0%Z -> 0 <= x < 1.
Proof.
  intro H. destruct (base_Int_part x) as [Hlo Hhi]. rewrite H in *. lra.
Qed.

Lemma step_num_is_step_count (o : option_attributes) :
  (0 <= step_count o)%Z -> py_int (time_left o * 252) = step_count o.
Proof. intro H. apply py_int_floor, Int_part_nonneg. exact H. Qed.

Lemma dt_pos (o : option_attributes) : (1 <= step_count o)%Z -> 0 < dt o.
Proof.
  intro H. unfold dt.
  assert (H1 : 1 <= IZR (step_count o)) by (apply IZR_le in H; exact H).
  destruct (base_Int_part (time_left o * 252)) as [Hlo _].
  fold (step_count o) in Hlo.
  apply Rdiv_lt_0_compat; lra.
Qed.

Lemma np_sqrt_nonneg (x : R) : 0 <= x -> np_sqrt x = Fin (sqrt x).
Proof. intro H. unfold np_sqrt. destruct (Rlt_dec x 0); [lra | reflexivity]. Qed.

(** ** The list of paths *)

Lemma returns_row_nth (k : nat) (row : list float64) (w : world) :
  nth_error (returns w) k = Some row -> returns_row (Z.of_nat k) w = (Ok row, w).
Proof.
  intro H. unfold returns_row.
  rewrite (bind_ok (gets returns) _ w (returns w) w eq_refl).
  apply getitem_nth. exact H.
Qed.

Lemma returns_row_beyond (i : Z) (w : world) :
  (Z.of_nat (length (returns w)) <= i)%Z ->
  returns_row i w = (Raise IndexError, w).
Proof.
  intro H. unfold returns_row.
  rewrite (bind_ok (gets returns) _ w (returns w) w eq_refl).
  apply getitem_beyond. exact H.
Qed.

Lemma returns_at_nth (k i : nat) (row : list float64) (x : float64) (w : world) :
  nth_error (returns w) k = Some row -> nth_error row i = Some x ->
  returns_at (Z.of_nat k) (Z.of_nat i) w = (Ok x, w).
Proof.
  intros Hk Hi. unfold returns_at.
  rewrite (bind_ok _ _ _ _ _ (returns_row_nth k row w Hk)).
  apply getitem_nth. exact Hi.
Qed.

Lemma returns_at_last (k : nat) (row : list float64) (x : float64) (w : world) :
  nth_error (returns w) k = Some (row ++ [x]) ->
  returns_at (Z.of_nat k) (-1) w = (Ok x, w).
Proof.
  intro Hk. unfold returns_at.
  rewrite (bind_ok _ _ _ _ _ (returns_row_nth k _ w Hk)).
  apply getitem_last.
Qed.

Lemma returns_row_append_nth (k : nat) (row : list float64) (x : float64) (w : world) :
  nth_error (returns w) k = Some row ->
  returns_row_append (Z.of_nat k) x w
  = (Ok tt, set_returns (list_update (returns w) k (row ++ [x])) w).
Proof.
  intro H. unfold returns_row_append.
  rewrite (bind_ok (gets returns) _ w (returns w) w eq_refl).
  rewrite norm_index_nat by (apply nth_error_Some; congruence).
  rewrite H. reflexivity.
Qed.

Lemma nth_error_snoc {A} (l : list A) (x : A) :
  nth_error (l ++ [x]) (length l) = Some x.
Proof. rewrite nth_error_app2 by lia. now rewrite Nat.sub_diag. Qed.

(** ** The payoff on finite prices *)

Lemma option_value_Fin (S K : R) : option_value (Fin S) K = Fin (payoff S K).
Proof.
  unfold option_value, payoff, fsub, fneg, fadd, fgt, Rmax.
  destruct (Rlt_dec (S + - K) 0) as [Hlt | Hge];
    destruct (Rle_dec (S - K) 0) as [Hle | Hgt]; try (f_equal; lra).
Qed.

Lemma payoff_nonneg (S K : R) : 0 <= payoff S K.
Proof. unfold payoff. apply Rmax_r. Qed.

(** ** The path loops *)

Lemma world_ext (w1 w2 : world) :
  opt w1 = opt w2 -> gen w1 = gen w2 -> drawn w1 = drawn w2 ->
  returns w1 = returns w2 -> final_value w1 = final_value w2 ->
  full_at_ind w1 = full_at_ind w2 -> avg_list w1 = avg_list w2 ->
  figure w1 = figure w2 -> shown w1 = shown w2 ->
  w1 = w2.
Proof.
  destruct w1, w2. cbn. intros. subst. reflexivity.
Qed.

Ltac fields :=
  cbn [opt gen drawn returns final_value full_at_ind avg_list figure shown
       set_opt set_drawn set_returns set_final_value set_full_at_ind
       set_avg_list set_figure set_shown].

Ltac world_eq :=
  match goal with
  | |- @eq world _ _ => apply world_ext; fields; try reflexivity
  end.

Ltac run_with H := eapply eq_trans; [apply bind_ok; exact H | cbv beta].
Ltac run_prim := eapply eq_trans; [apply bind_ok; reflexivity | cbv beta].

Section Paths.

Variable o : option_attributes.
Variable g : nat -> R.
Variable d0 : nat.
Hypothesis Hsteps : (1 <= step_count o)%Z.

Let n : nat := Z.to_nat (step_count o).
Let eps : nat -> nat -> R := draw g d0 n.

(** The days of one trial (lines 57-61 and 113-117): the row of trial [j]
    grows from the spot price to the whole path, one variate a day. *)
Lemma steps_loop (j : nat) (done : list (list float64)) (w : world) :
  opt w = o -> gen w = g -> drawn w = (d0 + j * n)%nat ->
  returns w = done ++ [[Fin (underlying_price o)]] ->
  length done = j ->
  for_each (range 1 (step_count o + 1)) (fun i =>
    epsilon <- standard_normal ;;
    prev <- returns_at (Z.of_nat j) (i - 1) ;;
    let next_price :=
      fmul prev
           (np_exp (fadd (Fin ((risk_free_rate o - 0.5 * vol o ^ 2) * dt o))
                         (fmul (fmul (Fin (vol o)) (np_sqrt (dt o))) epsilon))) in
    returns_row_append (Z.of_nat j) next_price) w
  = (Ok tt, set_returns (done ++ [map Fin (path_of o eps j)])
                        (set_drawn (d0 + S j * n)%nat w)).
Proof.
  intros Ho Hg Hd Hr Hlen.
  pose (I := fun (k : nat) (w1 : world) =>
    w1 = set_returns (done ++ [map Fin (map (price_at o eps j) (seq 0 (S k)))])
                     (set_drawn (d0 + j * n + k)%nat w)).
  destruct (for_each_ok I (range 1 (step_count o + 1))
    (fun i =>
      epsilon <- standard_normal ;;
      prev <- returns_at (Z.of_nat j) (i - 1) ;;
      let next_price :=
        fmul prev
             (np_exp (fadd (Fin ((risk_free_rate o - 0.5 * vol o ^ 2) * dt o))
                           (fmul (fmul (Fin (vol o)) (np_sqrt (dt o))) epsilon))) in
      returns_row_append (Z.of_nat j) next_price) w) as (w' & Hrun & Hend).
  - unfold I. simpl. unfold price_at at 1. simpl.
    rewrite Rmult_1_r, Nat.add_0_r, <- Hd, <- Hr.
    destruct w; reflexivity.
  - intros k x w1 Hx Hk. unfold I in Hk. subst w1.
    apply range_from_nth_inv in Hx. destruct Hx as [Hkn ->].
    eexists. split; [| unfold I; reflexivity].
    run_prim. cbn [drawn gen set_drawn set_returns]. rewrite Hg.
    replace (1 + Z.of_nat k - 1)%Z with (Z.of_nat k) by lia.
    eapply eq_trans.
    { apply bind_ok.
      apply (returns_at_nth j k (map Fin (map (price_at o eps j) (seq 0 (S k))))
                            (Fin (price_at o eps j k))).
      - cbn [returns]. rewrite <- Hlen. apply nth_error_snoc.
      - rewrite map_map.
        apply (nth_error_seq_map (fun i => Fin (price_at o eps j i))). lia. }
    cbv beta zeta.
    rewrite np_sqrt_nonneg by (left; apply dt_pos; exact Hsteps).
    cbn [fmul fadd np_exp].
    eapply eq_trans.
    { apply (returns_row_append_nth j (map Fin (map (price_at o eps j) (seq 0 (S k))))).
      cbn [returns]. rewrite <- Hlen. apply nth_error_snoc. }
    cbn [returns set_drawn set_returns].
    rewrite <- Hlen, list_update_last, Hlen.
    f_equal. world_eq; try lia.
    f_equal. f_equal.
    rewrite (seq_snoc (S k)), !map_app. cbn [map]. do 3 f_equal.
    unfold price_at. cbn [product]. unfold growth, eps, draw.
    replace (S k - 1)%nat with k by lia. ring.
  - unfold I in Hend. subst w'. rewrite Hrun. f_equal.
    unfold range. rewrite range_from_length.
    replace (Z.to_nat (step_count o + 1 - 1)) with n by (unfold n; f_equal; lia).
    world_eq. lia.
Qed.

Let rows (m : nat) : list (list float64) :=
  map (fun j => map Fin (path_of o eps j)) (seq 0 m).

Let x_ax : list Z := range 0 (step_count o + 1).

Lemma rows_length (m : nat) : length (rows m) = m.
Proof. unfold rows. now rewrite length_map, length_seq. Qed.

Lemma rows_snoc (m : nat) : rows (S m) = rows m ++ [map Fin (path_of o eps m)].
Proof. unfold rows. now rewrite seq_snoc, map_app. Qed.

Lemma payoffs_snoc (m : nat) :
  payoffs_of o eps (S m)
  = payoffs_of o eps m ++ [payoff (terminal o eps m) (strike_price o)].
Proof. unfold payoffs_of. now rewrite seq_snoc, map_app. Qed.

Lemma path_snoc (j : nat) :
  map Fin (path_of o eps j)
  = map Fin (map (price_at o eps j) (seq 0 n)) ++ [Fin (terminal o eps j)].
Proof. unfold path_of, terminal. fold n. now rewrite seq_snoc, !map_app. Qed.

Lemma path_length (j : nat) : length (map Fin (path_of o eps j)) = S n.
Proof. unfold path_of. fold n. now rewrite !length_map, length_seq. Qed.

Lemma x_ax_length : length x_ax = S n.
Proof.
  unfold x_ax, range. rewrite range_from_length. unfold n. lia.
Qed.

Lemma rows_nth_snoc (k : nat) (row : list float64) :
  nth_error (rows k ++ [row]) k = Some row.
Proof.
  pose proof (nth_error_snoc (rows k) row) as H.
  rewrite rows_length in H. exact H.
Qed.

(** The trials of the non-plotting simulator (lines 110-119). *)
Lemma trials_loop_noplot (m : nat) (w : world) :
  opt w = o -> gen w = g -> drawn w = d0 ->
  returns w = [] -> final_value w = [] ->
  for_each (range_from 0 m) (fun j =>
    returns_append [Fin (underlying_price o)] ;;;
    for_each (range 1 (step_count o + 1)) (fun i =>
      epsilon <- standard_normal ;;
      prev <- returns_at j (i - 1) ;;
      let next_price :=
        fmul prev
             (np_exp (fadd (Fin ((risk_free_rate o - 0.5 * vol o ^ 2) * dt o))
                           (fmul (fmul (Fin (vol o)) (np_sqrt (dt o))) epsilon))) in
      returns_row_append j next_price) ;;;
    last <- returns_at j (-1) ;;
    final_value_append (option_value last (strike_price o))) w
  = (Ok tt, set_final_value (map Fin (payoffs_of o eps m))
              (set_returns (rows m) (set_drawn (d0 + m * n)%nat w))).
Proof.
  intros Ho Hg Hd Hr Hf.
  pose (I := fun (k : nat) (w1 : world) =>
    w1 = set_final_value (map Fin (payoffs_of o eps k))
           (set_returns (rows k) (set_drawn (d0 + k * n)%nat w))).
  match goal with
  | |- for_each ?xs ?body w = _ =>
      destruct (for_each_ok I xs body w) as (w' & Hrun & Hend)
  end.
  - unfold I. cbn. rewrite Nat.add_0_r, <- Hd, <- Hr, <- Hf. destruct w; reflexivity.
  - intros k x w1 Hx Hk. unfold I in Hk. subst w1.
    apply range_from_nth_inv in Hx. destruct Hx as [Hkm ->].
    rewrite Z.add_0_l.
    eexists. split; [| unfold I; reflexivity].
    run_prim.
    eapply eq_trans.
    { apply bind_ok. apply (steps_loop k (rows k)); try reflexivity.
      - exact Ho.
      - exact Hg.
      - apply rows_length. }
    cbv beta.
    eapply eq_trans.
    { apply bind_ok.
      apply (returns_at_last k (map Fin (map (price_at o eps k) (seq 0 n)))
                             (Fin (terminal o eps k))).
      cbn [returns set_returns set_drawn set_final_value].
      rewrite <- path_snoc. apply rows_nth_snoc. }
    cbv beta. rewrite option_value_Fin.
    unfold final_value_append, modify. f_equal.
    rewrite rows_snoc, payoffs_snoc, map_app. cbn [map].
    world_eq.
  - unfold I in Hend. subst w'. rewrite Hrun. rewrite range_from_length. reflexivity.
Qed.

(** The trials of the plotting simulator (lines 54-63): as above, and every
    finished path is drawn on the current figure. *)
Lemma trials_loop_plot (m : nat) (w : world) :
  opt w = o -> gen w = g -> drawn w = d0 ->
  returns w = [] -> final_value w = [] ->
  for_each (range_from 0 m) (fun j =>
    returns_append [Fin (underlying_price o)] ;;;
    for_each (range 1 (step_count o + 1)) (fun i =>
      epsilon <- standard_normal ;;
      prev <- returns_at j (i - 1) ;;
      let next_price :=
        fmul prev
             (np_exp (fadd (Fin ((risk_free_rate o - 0.5 * vol o ^ 2) * dt o))
                           (fmul (fmul (Fin (vol o)) (np_sqrt (dt o))) epsilon))) in
      returns_row_append j next_price) ;;;
    row <- returns_row j ;;
    plt_plot x_ax row None ;;;
    last <- returns_at j (-1) ;;
    final_value_append (option_value last (strike_price o))) w
  = (Ok tt, set_figure (figure w ++ map (fun row => Line x_ax row None) (rows m))
              (set_final_value (map Fin (payoffs_of o eps m))
                 (set_returns (rows m) (set_drawn (d0 + m * n)%nat w)))).
Proof.
  intros Ho Hg Hd Hr Hf.
  pose (I := fun (k : nat) (w1 : world) =>
    w1 = set_figure (figure w ++ map (fun row => Line x_ax row None) (rows k))
           (set_final_value (map Fin (payoffs_of o eps k))
              (set_returns (rows k) (set_drawn (d0 + k * n)%nat w)))).
  match goal with
  | |- for_each ?xs ?body w = _ =>
      destruct (for_each_ok I xs body w) as (w' & Hrun & Hend)
  end.
  - unfold I. cbn. rewrite Nat.add_0_r, app_nil_r, <- Hd, <- Hr, <- Hf.
    destruct w; reflexivity.
  - intros k x w1 Hx Hk. unfold I in Hk. subst w1.
    apply range_from_nth_inv in Hx. destruct Hx as [Hkm ->].
    rewrite Z.add_0_l.
    eexists. split; [| unfold I; reflexivity].
    run_prim.
    eapply eq_trans.
    { apply bind_ok. apply (steps_loop k (rows k)); try reflexivity.
      - exact Ho.
      - exact Hg.
      - apply rows_length. }
    cbv beta.
    eapply eq_trans.
    { apply bind_ok. apply (returns_row_nth k (map Fin (path_of o eps k))).
      cbn [returns set_returns set_drawn set_final_value set_figure].
      apply rows_nth_snoc. }
    cbv beta.
    eapply eq_trans.
    { apply bind_ok. unfold plt_plot. rewrite x_ax_length, path_length, Nat.eqb_refl.
      reflexivity. }
    cbv beta.
    eapply eq_trans.
    { apply bind_ok.
      apply (returns_at_last k (map Fin (map (price_at o eps k) (seq 0 n)))
                             (Fin (terminal o eps k))).
      cbn [returns set_returns set_drawn set_final_value set_figure].
      rewrite <- path_snoc. apply rows_nth_snoc. }
    cbv beta. rewrite option_value_Fin.
    unfold final_value_append, modify. f_equal.
    rewrite rows_snoc, payoffs_snoc, !map_app. cbn [map].
    world_eq. now rewrite <- app_assoc.
  - unfold I in Hend. subst w'. rewrite Hrun. rewrite range_from_length. reflexivity.
Qed.

End Paths.

(** ** What the plotting code leaves alone *)

Lemma same_core_refl (w : world) : same_core w w.
Proof. unfold same_core. auto. Qed.

Lemma same_core_trans (w1 w2 w3 : world) :
  same_core w1 w2 -> same_core w2 w3 -> same_core w1 w3.
Proof.
  unfold same_core. intros (A1 & A2 & A3 & A4 & A5) (B1 & B2 & B3 & B4 & B5).
  repeat split; congruence.
Qed.

Section Rendering.

Variable rs : list (list float64).
Variable xs : list Z.
Hypothesis rows_wide : forall k row, nth_error rs k = Some row -> length row = length xs.

(** The averages per day (lines 74-82): every read is in range. *)
Lemma averages_loop (hi pc : Z) (w : world) :
  returns w = rs ->
  Z.to_nat (hi - 0) = length xs ->
  Z.to_nat (pc - 0) = length rs ->
  exists w',
    for_each (range 0 hi) (fun i =>
      modify (set_full_at_ind []) ;;;
      for_each (range 0 pc) (fun j =>
        x <- returns_at j i ;;
        full_at_ind_append x) ;;;
      full <- gets full_at_ind ;;
      avg_list_append (np_mean full)) w = (Ok tt, w')
    /\ same_core w w'.
Proof.
  intros Hr Hhi Hpc.
  match goal with
  | |- exists w', for_each ?l ?body w = _ /\ _ =>
      destruct (for_each_ok (fun _ w1 => same_core w w1) l body w) as (w' & Hrun & Hend)
  end.
  - apply same_core_refl.
  - intros k i w1 Hi Hcore.
    apply range_from_nth_inv in Hi. destruct Hi as [Hk ->]. rewrite Z.add_0_l.
    match goal with
    | |- exists w2, (_ ;;; for_each ?l ?body ;;; _) w1 = _ /\ _ =>
        destruct (for_each_ok (fun _ w2 => same_core w w2) l body
                              (set_full_at_ind [] w1)) as (w2 & Hrun2 & Hend2)
    end.
    + destruct Hcore as (A1 & A2 & A3 & A4 & A5). repeat split; assumption.
    + intros q j w2 Hj Hcore2.
      apply range_from_nth_inv in Hj. destruct Hj as [Hq ->]. rewrite Z.add_0_l.
      destruct Hcore2 as (A1 & A2 & A3 & A4 & A5).
      destruct (nth_error rs q) as [row |] eqn:Hrow.
      2: { apply nth_error_None in Hrow. lia. }
      destruct (nth_error row k) as [x |] eqn:Hx.
      2: { apply nth_error_None in Hx. rewrite (rows_wide q row Hrow) in Hx. lia. }
      eexists. split.
      * eapply eq_trans.
        { apply bind_ok. apply (returns_at_nth q k row x); [| exact Hx].
          rewrite A4, Hr. exact Hrow. }
        reflexivity.
      * repeat split; assumption.
    + eexists. split.
      * run_prim. run_with Hrun2. run_prim. reflexivity.
      * destruct Hend2 as (A1 & A2 & A3 & A4 & A5). repeat split; assumption.
  - exists w'. split; [exact Hrun | exact Hend].
Qed.

(** Drawing the first [count] paths (lines 83-84) when there are that many. *)
Lemma draw_paths_loop (count : nat) (w : world) :
  returns w = rs -> (count <= length rs)%nat ->
  exists w',
    for_each (range_from 0 count) (fun j =>
      row <- returns_row j ;;
      plt_plot xs row None) w = (Ok tt, w')
    /\ same_core w w'.
Proof.
  intros Hr Hcount.
  match goal with
  | |- exists w', for_each ?l ?body w = _ /\ _ =>
      destruct (for_each_ok (fun _ w1 => same_core w w1) l body w) as (w' & Hrun & Hend)
  end.
  - apply same_core_refl.
  - intros k j w1 Hj Hcore.
    apply range_from_nth_inv in Hj. destruct Hj as [Hk ->]. rewrite Z.add_0_l.
    destruct Hcore as (A1 & A2 & A3 & A4 & A5).
    destruct (nth_error rs k) as [row |] eqn:Hrow.
    2: { apply nth_error_None in Hrow. lia. }
    eexists. split.
    + eapply eq_trans.
      { apply bind_ok. apply (returns_row_nth k row). rewrite A4, Hr. exact Hrow. }
      cbv beta. unfold plt_plot.
      rewrite (rows_wide k row Hrow), Nat.eqb_refl. reflexivity.
    + repeat split; assumption.
  - exists w'. split; [exact Hrun | exact Hend].
Qed.

(** Drawing [count] paths when fewer exist: the read of the first missing
    path raises. *)
Lemma draw_paths_loop_short (count : nat) (w : world) :
  returns w = rs -> (length rs < count)%nat ->
  exists w',
    for_each (range_from 0 count) (fun j =>
      row <- returns_row j ;;
      plt_plot xs row None) w = (Raise IndexError, w')
    /\ same_core w w'.
Proof.
  intros Hr Hcount.
  replace count with (length rs + S (count - length rs - 1))%nat by lia.
  rewrite range_from_app. cbn [range_from].
  match goal with
  | |- exists w', for_each (?pre ++ ?x :: ?post) ?body w = _ /\ _ =>
      destruct (for_each_raise (fun _ w1 => same_core w w1) (same_core w)
                               pre x post body IndexError w) as (w' & Hrun & Hend)
  end.
  - apply same_core_refl.
  - intros k j w1 Hj Hcore.
    apply range_from_nth_inv in Hj. destruct Hj as [Hk ->]. rewrite Z.add_0_l.
    destruct Hcore as (A1 & A2 & A3 & A4 & A5).
    destruct (nth_error rs k) as [row |] eqn:Hrow.
    2: { apply nth_error_None in Hrow. lia. }
    eexists. split.
    + eapply eq_trans.
      { apply bind_ok. apply (returns_row_nth k row). rewrite A4, Hr. exact Hrow. }
      cbv beta. unfold plt_plot.
      rewrite (rows_wide k row Hrow), Nat.eqb_refl. reflexivity.
    + repeat split; assumption.
  - intros w1 Hcore. exists w1. split; [| exact Hcore].
    apply bind_raise. apply returns_row_beyond.
    destruct Hcore as (A1 & A2 & A3 & A4 & A5). rewrite A4, Hr. lia.
  - exists w'. split; [exact Hrun | exact Hend].
Qed.

End Rendering.

(** ** Sums and means of finite values *)

Lemma fold_fadd_Fin (l : list R) (a : R) :
  fold_left fadd (map Fin l) (Fin a) = Fin (a + Rsum l).
Proof.
  revert a. induction l as [| x l IH]; intro a; simpl.
  - f_equal. lra.
  - rewrite IH. f_equal. lra.
Qed.

Lemma py_sum_Fin (l : list R) : py_sum (map Fin l) = Fin (Rsum l).
Proof. unfold py_sum. rewrite fold_fadd_Fin. f_equal. lra. Qed.

Lemma Rsum_nonneg (l : list R) : (forall x, In x l -> 0 <= x) -> 0 <= Rsum l.
Proof.
  induction l as [| x l IH]; intro H; simpl.
  - lra.
  - assert (0 <= x) by (apply H; left; reflexivity).
    assert (0 <= Rsum l) by (apply IH; intros y Hy; apply H; right; exact Hy).
    lra.
Qed.

Lemma payoffs_length o eps m : length (payoffs_of o eps m) = m.
Proof. unfold payoffs_of. now rewrite length_map, length_seq. Qed.

Lemma discounted_mean_nonneg o eps m : 0 <= discounted_mean_payoff o eps m.
Proof.
  unfold discounted_mean_payoff, mean.
  apply Rmult_le_pos; [left; apply exp_pos |].
  assert (Hs : 0 <= Rsum (payoffs_of o eps m)).
  { apply Rsum_nonneg. intros x Hx. unfold payoffs_of in Hx.
    apply in_map_iff in Hx. destruct Hx as (j & <- & _). apply payoff_nonneg. }
  rewrite payoffs_length. unfold Rdiv.
  apply Rmult_le_pos; [exact Hs |].
  destruct m as [| m].
  - simpl. rewrite Rinv_0. lra.
  - left. apply Rinv_0_lt_compat. apply lt_0_INR. lia.
Qed.

Lemma average_Fin (s : R) (pc : Z) (w : world) :
  (1 <= pc)%Z ->
  py_div_float (Fin s) pc w = (Ok (Fin (s / INR (Z.to_nat pc))), w).
Proof.
  intro H. unfold py_div_float.
  destruct (Z.eqb_spec pc 0) as [E | _]; [lia |].
  unfold ret, np_div.
  destruct (Req_dec_T (IZR pc) 0) as [E | _].
  - apply eq_IZR_R0 in E. lia.
  - rewrite INR_IZR_INZ, Z2Nat.id by lia. reflexivity.
Qed.

(** ** The simulators, run *)

(** The non-plotting simulator, from any state whose contract has at least
    one step, for at least one trial: the value and the state it leaves. *)
Lemma noplot_run (pc : Z) (w : world) :
  (1 <= step_count (opt w))%Z -> (1 <= pc)%Z ->
  let o := opt w in
  let n := Z.to_nat (step_count o) in
  let m := Z.to_nat pc in
  let eps := draw (gen w) (drawn w) n in
  day_by_day_price_simulation_noplot pc w
  = (Ok (Fin (discounted_mean_payoff o eps m)),
     set_final_value (map Fin (payoffs_of o eps m))
       (set_returns (map (fun j => map Fin (path_of o eps j)) (seq 0 m))
          (set_drawn (drawn w + m * n)%nat w))).
Proof.
  intros Hsteps Hpc o n m eps.
  unfold day_by_day_price_simulation_noplot.
  do 5 run_prim. cbv zeta.
  rewrite (step_num_is_step_count (opt w)) by lia.
  unfold py_div_int at 1.
  destruct (Z.eqb_spec (step_count (opt w)) 0) as [E | _]; [lia |].
  do 3 run_prim.
  unfold range at 1. rewrite Z.sub_0_r.
  eapply eq_trans.
  { apply bind_ok.
    apply (trials_loop_noplot (opt w) (gen w) (drawn w) Hsteps (Z.to_nat pc));
      reflexivity. }
  cbv beta. do 3 run_prim.
  cbn [final_value set_final_value set_returns set_drawn].
  rewrite py_sum_Fin.
  eapply eq_trans.
  { apply bind_ok. apply average_Fin. exact Hpc. }
  cbv beta. unfold ret. cbn [fmul opt set_final_value set_returns set_drawn].
  apply f_equal2; [| world_eq].
  unfold discounted_mean_payoff, mean. rewrite payoffs_length. reflexivity.
Qed.

(** ** Outcomes, step by step *)

Lemma outcome_bind_ok {A B} (m : M A) (k : A -> M B) w a w1 r Q :
  m w = (Ok a, w1) -> outcome (k a) w1 r Q -> outcome (bind m k) w r Q.
Proof.
  intros Hm (w' & Hk & HQ). exists w'. split; [| exact HQ].
  rewrite (bind_ok _ _ _ _ _ Hm). exact Hk.
Qed.

Lemma outcome_bind_ex {A B} (P : world -> Prop) (m : M A) (k : A -> M B) w a r Q :
  (exists w1, m w = (Ok a, w1) /\ P w1) ->
  (forall w1, P w1 -> outcome (k a) w1 r Q) ->
  outcome (bind m k) w r Q.
Proof.
  intros (w1 & Hm & HP) Hk. eapply outcome_bind_ok; [exact Hm | apply Hk, HP].
Qed.

Lemma outcome_bind_raise {A B} (m : M A) (k : A -> M B) w e Q :
  (exists w1, m w = (Raise e, w1) /\ Q w1) ->
  outcome (bind m k) w (Raise e) Q.
Proof.
  intros (w1 & Hm & HQ). exists w1. split; [| exact HQ].
  apply bind_raise. exact Hm.
Qed.

Lemma outcome_ret {A} (a a' : A) w (Q : world -> Prop) :
  a = a' -> Q w -> outcome (ret a) w (Ok a') Q.
Proof. intros <- H. exists w. split; [reflexivity | exact H]. Qed.

Lemma plt_decorate_core (c : plot_cmd) (w0 w : world) :
  same_core w0 w -> exists w1, plt_decorate c w = (Ok tt, w1) /\ same_core w0 w1.
Proof. intro H. eexists. split; [reflexivity | exact H]. Qed.

Lemma plt_show_core (w0 w : world) :
  same_core w0 w -> exists w1, plt_show w = (Ok tt, w1) /\ same_core w0 w1.
Proof. intro H. eexists. split; [reflexivity | exact H]. Qed.

Lemma plt_plot_core xs ys c (w0 w : world) :
  length xs = length ys -> same_core w0 w ->
  exists w1, plt_plot xs ys c w = (Ok tt, w1) /\ same_core w0 w1.
Proof.
  intros E H. unfold plt_plot. rewrite E, Nat.eqb_refl.
  eexists. split; [reflexivity | exact H].
Qed.

Lemma reset_avg_list_core (w0 w : world) :
  same_core w0 w -> exists w1, modify (set_avg_list []) w = (Ok tt, w1) /\ same_core w0 w1.
Proof. intro H. eexists. split; [reflexivity | exact H]. Qed.

Ltac ostep := eapply outcome_bind_ok; [reflexivity | cbv beta].

Ltac core_step L :=
  match goal with
  | Hc : same_core ?W0 ?wc |- outcome _ ?wc _ _ =>
      eapply (outcome_bind_ex (same_core W0));
      [ apply L; try exact Hc
      | clear dependent wc;
        let w1 := fresh "wc" in let H1 := fresh "Hcur" in
        intros w1 H1; cbv beta ]
  end.

Ltac core_loop L :=
  match goal with
  | Hc : same_core ?W0 ?wc |- outcome _ ?wc _ _ =>
      eapply (outcome_bind_ex (same_core W0));
      [ let w1 := fresh "w" in let Hr := fresh "Hrun" in let He := fresh "Hend" in
        destruct L as (w1 & Hr & He);
        [ .. | exists w1; split;
               [exact Hr | exact (same_core_trans _ _ _ Hc He)] ]
      | clear dependent wc;
        let w1 := fresh "wc" in let H1 := fresh "Hcur" in
        intros w1 H1; cbv beta ]
  end.

Lemma plot_run (pc : Z) (w : world) :
  (1 <= step_count (opt w))%Z -> (1 <= pc)%Z ->
  let o := opt w in
  let n := Z.to_nat (step_count o) in
  let m := Z.to_nat pc in
  let eps := draw (gen w) (drawn w) n in
  outcome (day_by_day_price_simulation pc) w
    (if (10 <=? pc)%Z then Ok (Fin (discounted_mean_payoff o eps m))
     else Raise IndexError)
    (fun w' =>
       opt w' = opt w /\ gen w' = gen w
       /\ drawn w' = (drawn w + m * n)%nat
       /\ returns w' = map (fun j => map Fin (path_of o eps j)) (seq 0 m)
       /\ final_value w' = map Fin (payoffs_of o eps m)).
Proof.
  intros Hsteps Hpc o n m eps.
  unfold day_by_day_price_simulation.
  do 5 ostep. cbv zeta.
  rewrite (step_num_is_step_count (opt w)) by lia.
  unfold py_div_int at 1.
  destruct (Z.eqb_spec (step_count (opt w)) 0) as [E | _]; [lia |].
  do 3 ostep.
  unfold range at 1. rewrite Z.sub_0_r.
  eapply outcome_bind_ok.
  { apply (trials_loop_plot (opt w) (gen w) (drawn w) Hsteps (Z.to_nat pc));
      reflexivity. }
  cbv beta.
  match goal with |- outcome _ ?W _ _ => remember W as W0 eqn:EW0 end.
  assert (C1 : opt W0 = opt w) by (rewrite EW0; reflexivity).
  assert (C2 : gen W0 = gen w) by (rewrite EW0; reflexivity).
  assert (C3 : drawn W0 = (drawn w + m * n)%nat) by (rewrite EW0; reflexivity).
  assert (C4 : returns W0 = map (fun j => map Fin (path_of o eps j)) (seq 0 m))
    by (rewrite EW0; reflexivity).
  assert (C5 : final_value W0 = map Fin (payoffs_of o eps m))
    by (rewrite EW0; reflexivity).
  clear EW0.
  assert (Hfin : forall wc, same_core W0 wc ->
            opt wc = opt w /\ gen wc = gen w
            /\ drawn wc = (drawn w + m * n)%nat
            /\ returns wc = map (fun j => map Fin (path_of o eps j)) (seq 0 m)
            /\ final_value wc = map Fin (payoffs_of o eps m)).
  { intros wc (A1 & A2 & A3 & A4 & A5). repeat split; congruence. }
  assert (Hlen : length (map (fun j => map Fin (path_of o eps j)) (seq 0 m)) = m)
    by (rewrite length_map, length_seq; reflexivity).
  assert (Hwide : forall k row,
            nth_error (map (fun j => map Fin (path_of o eps j)) (seq 0 m)) k = Some row ->
            length row = length (range 0 (step_count (opt w) + 1))).
  { intros k row Hk. rewrite (x_ax_length (opt w) Hsteps).
    rewrite nth_error_map in Hk.
    destruct (nth_error (seq 0 m) k) as [j |]; [| discriminate].
    injection Hk as <-. apply path_length. }
  match goal with
  | |- outcome ?p W0 ?r ?Q =>
      enough (Hgen : forall wc, same_core W0 wc -> outcome p wc r Q)
        by (apply Hgen, same_core_refl)
  end.
  intros wc Hcur.
  do 3 core_step plt_decorate_core. core_step plt_show_core.
  destruct (Z_lt_le_dec pc 5) as [Hfew | Hfive].
  { replace (10 <=? pc)%Z with false by (symmetry; apply Z.leb_gt; lia).
    apply outcome_bind_raise. exists wc. split; [| apply Hfin, Hcur].
    apply returns_row_beyond.
    destruct (Hfin wc Hcur) as (_ & _ & _ & -> & _). rewrite Hlen. lia. }
  destruct (nth_error (map (fun j => map Fin (path_of o eps j)) (seq 0 m)) 4)
    as [row4 |] eqn:Hrow4.
  2: { apply nth_error_None in Hrow4. rewrite Hlen in Hrow4. lia. }
  eapply outcome_bind_ok.
  { apply (returns_row_nth 4 row4).
    destruct (Hfin wc Hcur) as (_ & _ & _ & -> & _). exact Hrow4. }
  cbv beta.
  core_step plt_plot_core.
  { symmetry. apply (Hwide 4%nat). exact Hrow4. }
  do 3 core_step plt_decorate_core. core_step plt_show_core.
  core_step reset_avg_list_core.
  core_loop (averages_loop _ _ Hwide (step_count (opt w) + 1) pc wc).
  { destruct (Hfin wc Hcur) as (_ & _ & _ & -> & _). reflexivity. }
  { unfold range. rewrite range_from_length. reflexivity. }
  { rewrite Hlen. rewrite Z.sub_0_r. reflexivity. }
  change (range 0 10) with (range_from 0 10).
  destruct (Z.leb_spec 10 pc) as [Hten | Hnine].
  2: { apply outcome_bind_raise.
       destruct (draw_paths_loop_short _ _ Hwide 10 wc) as (w1 & Hrun & Hend).
       - destruct (Hfin wc Hcur) as (_ & _ & _ & -> & _). reflexivity.
       - rewrite Hlen. lia.
       - exists w1. split; [exact Hrun |].
         apply Hfin. exact (same_core_trans _ _ _ Hcur Hend). }
  core_loop (draw_paths_loop _ _ Hwide 10 wc).
  { destruct (Hfin wc Hcur) as (_ & _ & _ & -> & _). reflexivity. }
  { rewrite Hlen. lia. }
  do 3 core_step plt_decorate_core. core_step plt_show_core.
  do 3 ostep.
  destruct (Hfin wc Hcur) as (A1 & _ & _ & _ & A5).
  rewrite A5, py_sum_Fin.
  eapply outcome_bind_ok.
  { apply average_Fin. exact Hpc. }
  cbv beta. apply outcome_ret; [| apply Hfin, Hcur].
  rewrite A1. cbn [fmul].
  unfold discounted_mean_payoff, mean. rewrite payoffs_length. reflexivity.
Qed.

(** ** The contract is never written *)

Lemma keeps_opt_ret {A} (a : A) : keeps_opt (ret a).
Proof. intro w. reflexivity. Qed.

Lemma keeps_opt_raise {A} (e : exn) : keeps_opt (@raise A e).
Proof. intro w. reflexivity. Qed.

Lemma keeps_opt_gets {A} (f : world -> A) : keeps_opt (gets f).
Proof. intro w. reflexivity. Qed.

Lemma keeps_opt_attr (f : option_attributes -> R) : keeps_opt (attr f).
Proof. intro w. reflexivity. Qed.

Lemma keeps_opt_modify (f : world -> world) :
  (forall w, opt (f w) = opt w) -> keeps_opt (modify f).
Proof. intros H w. apply H. Qed.

Lemma keeps_opt_bind {A B} (m : M A) (k : A -> M B) :
  keeps_opt m -> (forall a, keeps_opt (k a)) -> keeps_opt (bind m k).
Proof.
  intros Hm Hk w. unfold bind. specialize (Hm w).
  destruct (m w) as [[a | e] w1]; cbn [snd] in *.
  - rewrite Hk. exact Hm.
  - exact Hm.
Qed.

Lemma keeps_opt_for_each {A} (xs : list A) (body : A -> M unit) :
  (forall x, keeps_opt (body x)) -> keeps_opt (for_each xs body).
Proof.
  intro H. induction xs as [| x xs IH]; cbn [for_each].
  - apply keeps_opt_ret.
  - apply keeps_opt_bind; [apply H | intros _; exact IH].
Qed.

Lemma keeps_opt_getitem {A} (l : list A) (i : Z) : keeps_opt (getitem l i).
Proof.
  unfold getitem. destruct (norm_index l i) as [k |].
  - destruct (nth_error l k); [apply keeps_opt_ret | apply keeps_opt_raise].
  - apply keeps_opt_raise.
Qed.

Lemma keeps_opt_standard_normal : keeps_opt standard_normal.
Proof. intro w. reflexivity. Qed.

Lemma keeps_opt_returns_row (j : Z) : keeps_opt (returns_row j).
Proof.
  apply keeps_opt_bind; [apply keeps_opt_gets | intro; apply keeps_opt_getitem].
Qed.

Lemma keeps_opt_returns_at (j i : Z) : keeps_opt (returns_at j i).
Proof.
  apply keeps_opt_bind; [apply keeps_opt_returns_row | intro; apply keeps_opt_getitem].
Qed.

Lemma keeps_opt_returns_row_append (j : Z) (x : float64) :
  keeps_opt (returns_row_append j x).
Proof.
  apply keeps_opt_bind; [apply keeps_opt_gets | intro rs].
  destruct (norm_index rs j) as [k |]; [| apply keeps_opt_raise].
  destruct (nth_error rs k); [| apply keeps_opt_raise].
  apply keeps_opt_modify. reflexivity.
Qed.

Lemma keeps_opt_plt_plot xs ys c : keeps_opt (plt_plot xs ys c).
Proof.
  unfold plt_plot. destruct (Nat.eqb (length xs) (length ys)).
  - apply keeps_opt_modify. reflexivity.
  - apply keeps_opt_raise.
Qed.

Lemma keeps_opt_py_div_int a b : keeps_opt (py_div_int a b).
Proof.
  unfold py_div_int. destruct (b =? 0)%Z; [apply keeps_opt_raise | apply keeps_opt_ret].
Qed.

Lemma keeps_opt_py_div_float a b : keeps_opt (py_div_float a b).
Proof.
  unfold py_div_float. destruct (b =? 0)%Z; [apply keeps_opt_raise | apply keeps_opt_ret].
Qed.

Lemma keeps_opt_py_div a b : keeps_opt (py_div a b).
Proof.
  unfold py_div. destruct (Req_dec_T b 0); [apply keeps_opt_raise | apply keeps_opt_ret].
Qed.

Ltac frame_step :=
  first
    [ apply keeps_opt_ret
    | apply keeps_opt_attr
    | apply keeps_opt_standard_normal
    | apply keeps_opt_returns_row
    | apply keeps_opt_returns_at
    | apply keeps_opt_returns_row_append
    | apply keeps_opt_plt_plot
    | apply keeps_opt_py_div_int
    | apply keeps_opt_py_div_float
    | apply keeps_opt_py_div
    | apply keeps_opt_getitem
    | apply keeps_opt_gets
    | apply keeps_opt_modify; intro; reflexivity
    | apply keeps_opt_for_each; intro
    | apply keeps_opt_bind; [| intro] ].

Lemma keeps_opt_simulation (pc : Z) : keeps_opt (day_by_day_price_simulation pc).
Proof. unfold day_by_day_price_simulation. cbv zeta. repeat frame_step. Qed.

Lemma keeps_opt_simulation_noplot (pc : Z) :
  keeps_opt (day_by_day_price_simulation_noplot pc).
Proof. unfold day_by_day_price_simulation_noplot. cbv zeta. repeat frame_step. Qed.

Lemma keeps_opt_formula_bs : keeps_opt option_price_formula_bs.
Proof. unfold option_price_formula_bs. cbv zeta. repeat frame_step. Qed.

(** ** No step at all *)

(** With [int(time * 252) = 0] the division [time / step_num] of line 50
    (106) raises before anything is assigned. *)
Lemma noplot_zero_steps (pc : Z) (w : world) :
  step_count (opt w) = 0%Z ->
  day_by_day_price_simulation_noplot pc w = (Raise ZeroDivisionError, w).
Proof.
  intro H. unfold day_by_day_price_simulation_noplot.
  do 5 run_prim. cbv zeta.
  rewrite (step_num_is_step_count (opt w)) by lia. rewrite H.
  apply bind_raise. reflexivity.
Qed.

Lemma plot_zero_steps (pc : Z) (w : world) :
  step_count (opt w) = 0%Z ->
  day_by_day_price_simulation pc w = (Raise ZeroDivisionError, w).
Proof.
  intro H. unfold day_by_day_price_simulation.
  do 5 run_prim. cbv zeta.
  rewrite (step_num_is_step_count (opt w)) by lia. rewrite H.
  apply bind_raise. reflexivity.
Qed.

(** ** The closed formula, run *)

Lemma py_div_ok (a b : R) (w : world) : b <> 0 -> py_div a b w = (Ok (a / b), w).
Proof.
  intro H. unfold py_div. destruct (Req_dec_T b 0) as [E | _]; [contradiction | reflexivity].
Qed.

Lemma py_div_zero (a : R) (w : world) : py_div a 0 w = (Raise ZeroDivisionError, w).
Proof.
  unfold py_div. destruct (Req_dec_T 0 0) as [_ | N]; [reflexivity | contradiction].
Qed.

(** With a strike other than zero no line of the formula raises. *)
Lemma bs_eval (w : world) :
  strike_price (opt w) <> 0 ->
  option_price_formula_bs w = (Ok (bs_float (opt w)), w).
Proof.
  intro HK. unfold option_price_formula_bs.
  do 4 run_prim. run_with (py_div_ok (underlying_price (opt w)) (strike_price (opt w)) w HK).
  run_prim. cbv zeta.
  do 4 run_prim. run_with (py_div_ok (underlying_price (opt w)) (strike_price (opt w)) w HK).
  do 5 run_prim. reflexivity.
Qed.

(** A strike of zero stops the formula at the division of line 132. *)
Lemma bs_zero_strike (w : world) :
  strike_price (opt w) = 0 ->
  option_price_formula_bs w = (Raise ZeroDivisionError, w).
Proof.
  intro HK. unfold option_price_formula_bs.
  do 4 run_prim. apply bind_raise. rewrite HK. apply py_div_zero.
Qed.

Lemma np_div_Fin (a b : R) : b <> 0 -> np_div (Fin a) (Fin b) = Fin (a / b).
Proof.
  intro H. unfold np_div. destruct (Req_dec_T b 0) as [E | _]; [contradiction | reflexivity].
Qed.

Lemma np_log_pos (x : R) : 0 < x -> np_log x = Fin (ln x).
Proof.
  intro H. unfold np_log. destruct (Rlt_dec 0 x) as [_ | N]; [reflexivity | contradiction].
Qed.

Lemma scale_pos (o : option_attributes) :
  0 < vol o -> 0 < time_left o -> 0 < vol o * sqrt (time_left o).
Proof. intros Hv Ht. apply Rmult_lt_0_compat; [exact Hv | apply sqrt_lt_R0, Ht]. Qed.

(** On a contract of positive prices, volatility and time the value is
    finite and is the closed form. *)
Lemma bs_float_closed_form (o : option_attributes) :
  0 < underlying_price o -> 0 < strike_price o -> 0 < vol o -> 0 < time_left o ->
  bs_float o = Fin (black_scholes_call o).
Proof.
  intros HS HK Hv Ht. unfold bs_float. cbv zeta.
  assert (Hsc := scale_pos o Hv Ht).
  assert (Hsq : 0 < sqrt (time_left o)) by (apply sqrt_lt_R0, Ht).
  rewrite np_sqrt_nonneg by lra. cbn [fmul].
  rewrite np_div_Fin by lra.
  rewrite np_log_pos by (apply Rdiv_lt_0_compat; assumption).
  cbn [fmul fadd norm_cdf np_exp fsub fneg].
  unfold black_scholes_call, bs_d1, bs_d2.
  f_equal.
  replace (1 / (vol o * sqrt (time_left o)) *
           (ln (underlying_price o / strike_price o) +
            (risk_free_rate o + 0.5 * vol o ^ 2) * time_left o))
    with ((ln (underlying_price o / strike_price o) +
           (risk_free_rate o + 0.5 * vol o ^ 2) * time_left o) /
          (vol o * sqrt (time_left o))) by (field; try split; lra).
  replace (1 / (vol o * sqrt (time_left o)) *
           (ln (underlying_price o / strike_price o) +
            (risk_free_rate o - 0.5 * vol o ^ 2) * time_left o))
    with ((ln (underlying_price o / strike_price o) +
           (risk_free_rate o - 0.5 * vol o ^ 2) * time_left o) /
          (vol o * sqrt (time_left o))) by (field; try split; lra).
  ring.
Qed.

Lemma signed_inf_pos (a : R) : 0 < a -> signed_inf a = PInf.
Proof.
  intro H. unfold signed_inf. destruct (Rlt_dec 0 a); [reflexivity | contradiction].
Qed.

Lemma signed_inf_neg (a : R) : a < 0 -> signed_inf a = NInf.
Proof.
  intro H. unfold signed_inf.
  destruct (Rlt_dec 0 a); [lra |]. destruct (Rlt_dec a 0); [reflexivity | contradiction].
Qed.

Lemma signed_inf_zero : signed_inf 0 = NaN.
Proof.
  unfold signed_inf.
  destruct (Rlt_dec 0 0); [lra |]. destruct (Rlt_dec 0 0); [lra | reflexivity].
Qed.

(** Without volatility or without time the divisor of lines 131 and 135 is
    zero, the quotient is [inf], and the value depends on the sign of
    [ln(S/K) + r T] alone. *)
Lemma bs_float_degenerate (o : option_attributes) :
  0 < underlying_price o -> 0 < strike_price o ->
  0 <= vol o -> 0 <= time_left o -> vol o = 0 \/ time_left o = 0 ->
  let a := ln (underlying_price o / strike_price o) + risk_free_rate o * time_left o in
  bs_float o =
    if Req_dec_T a 0 then NaN
    else if Rlt_dec 0 a
         then Fin (underlying_price o
                   - strike_price o * exp (- risk_free_rate o * time_left o))
         else Fin 0.
Proof.
  intros HS HK Hv Ht Hz a. unfold bs_float. cbv zeta.
  rewrite np_sqrt_nonneg by exact Ht. cbn [fmul].
  assert (Hzero : vol o * sqrt (time_left o) = 0).
  { destruct Hz as [-> | ->]; [ring | rewrite sqrt_0; ring]. }
  rewrite Hzero.
  assert (Hinf : np_div (Fin 1) (Fin 0) = PInf).
  { unfold np_div. destruct (Req_dec_T 0 0) as [_ | N]; [| contradiction].
    apply signed_inf_pos. lra. }
  rewrite Hinf.
  rewrite np_log_pos by (apply Rdiv_lt_0_compat; assumption).
  cbn [fadd fmul].
  assert (Hhalf : 0.5 * vol o ^ 2 * time_left o = 0).
  { destruct Hz as [-> | ->]; ring. }
  replace (ln (underlying_price o / strike_price o) +
           (risk_free_rate o + 0.5 * vol o ^ 2) * time_left o) with a
    by (unfold a; lra).
  replace (ln (underlying_price o / strike_price o) +
           (risk_free_rate o - 0.5 * vol o ^ 2) * time_left o) with a
    by (unfold a; lra).
  destruct (Req_dec_T a 0) as [E | N].
  - rewrite E, signed_inf_zero. reflexivity.
  - destruct (Rlt_dec 0 a) as [P | NP].
    + rewrite signed_inf_pos by exact P.
      cbn [norm_cdf fmul np_exp fsub fneg fadd]. f_equal. ring.
    + rewrite signed_inf_neg by lra.
      cbn [norm_cdf fmul np_exp fsub fneg fadd]. f_equal. ring.
Qed.

(** ** The sample contracts *)

Lemma sample_steps : step_count sample_option = 40%Z.
Proof.
  unfold step_count, sample_option. cbn [time_left].
  symmetry. apply Int_part_spec. lra.
Qed.

Lemma short_steps : step_count short_option = 0%Z.
Proof.
  unfold step_count, short_option. cbn [time_left].
  symmetry. apply Int_part_spec. lra.
Qed.

Lemma expiring_steps : step_count expiring_option = 0%Z.
Proof.
  unfold step_count, expiring_option. cbn [time_left].
  symmetry. apply Int_part_spec. lra.
Qed.

Lemma sample_moneyness : ln (1200 / 1220) < 0.
Proof. rewrite <- ln_1. apply ln_increasing; lra. Qed.

(** ** The paths the simulators leave *)

Lemma rows_complete (o : option_attributes) (eps : nat -> nat -> R) (m : nat) :
  paths_complete o m (map (fun j => map Fin (path_of o eps j)) (seq 0 m)).
Proof.
  split.
  - rewrite length_map, length_seq. reflexivity.
  - intros path Hin. apply in_map_iff in Hin. destruct Hin as (j & <- & _).
    split.
    + unfold path_of. rewrite !length_map, length_seq. reflexivity.
    + unfold path_of. cbn [seq map nth_error]. unfold price_at. cbn [product].
      do 2 f_equal. ring.
Qed.

(** ** Without a trial *)

(** No trial, non-plotting: the empty sum is divided by [float(path_count)]. *)
Lemma noplot_without_trial (pc : Z) (w : world) :
  (1 <= step_count (opt w))%Z -> (pc <= 0)%Z ->
  day_by_day_price_simulation_noplot pc w
  = ((if (pc =? 0)%Z then Raise ZeroDivisionError else Ok (Fin 0)),
     set_final_value [] (set_returns [] w)).
Proof.
  intros Hsteps Hpc. unfold day_by_day_price_simulation_noplot.
  do 5 run_prim. cbv zeta.
  rewrite (step_num_is_step_count (opt w)) by lia.
  unfold py_div_int at 1.
  destruct (Z.eqb_spec (step_count (opt w)) 0) as [E | _]; [lia |].
  do 3 run_prim.
  rewrite (range_nonpos 0 pc) by lia. cbn [for_each].
  do 4 run_prim.
  cbn [final_value set_final_value]. unfold py_sum. cbn [fold_left].
  unfold py_div_float.
  destruct (Z.eqb_spec pc 0) as [E | N].
  - apply bind_raise. reflexivity.
  - run_prim. unfold ret, np_div.
    destruct (Req_dec_T (IZR pc) 0) as [E | _].
    + apply eq_IZR_R0 in E. contradiction.
    + cbn [fmul]. do 3 f_equal. unfold Rdiv. ring.
Qed.

(** No trial, plotting: the read of [returns[4]] fails. *)
Lemma plot_without_trial (pc : Z) (w : world) :
  (1 <= step_count (opt w))%Z -> (pc <= 0)%Z ->
  exists w',
    day_by_day_price_simulation pc w = (Raise IndexError, w')
    /\ drawn w' = drawn w /\ returns w' = [] /\ final_value w' = []
    /\ figure w' = []
    /\ shown w' = shown w ++ [figure w ++
                              [Title "Paths of All Simulations";
                               XLabel "Number of Days From Start";
                               YLabel "Underlying Asset Price"]].
Proof.
  intros Hsteps Hpc. eexists. split.
  - unfold day_by_day_price_simulation.
    do 5 run_prim. cbv zeta.
    rewrite (step_num_is_step_count (opt w)) by lia.
    unfold py_div_int at 1.
    destruct (Z.eqb_spec (step_count (opt w)) 0) as [E | _]; [lia |].
    do 3 run_prim.
    rewrite (range_nonpos 0 pc) by lia. cbn [for_each].
    do 5 run_prim.
    apply bind_raise. apply returns_row_beyond. fields. cbn [length]. lia.
  - fields. rewrite <- !app_assoc. repeat split.
Qed.

(** ** The statements of the specification *)

(** C1: for a contract of at least one step and at least one trial, the
    Monte Carlo simulator returns [e^(-rT)] times the mean, over the trials,
    of [max(terminal_j - strike, 0)], where the terminal price of trial [j]
    is the price of the underlying times the product over the steps of
    [exp((r - 0.5 sigma^2) dt + sigma sqrt(dt) eps_(j,i))], with
    [dt = T / step_count]; the draws are those the generator delivers, in
    order.  The plotting simulator returns the same number from ten trials
    on. *)
Theorem simulation_returns_discounted_mean_payoff (pc : Z) (w : world) :
  (1 <= step_count (opt w))%Z -> (1 <= pc)%Z ->
  let o := opt w in
  let n := Z.to_nat (step_count o) in
  let eps := draw (gen w) (drawn w) n in
  let terminal_price := fun j : nat =>
    underlying_price o *
    product n (fun i =>
      exp ((risk_free_rate o - 0.5 * vol o ^ 2) * dt o
           + vol o * sqrt (dt o) * eps j i)) in
  let price :=
    exp (- risk_free_rate o * time_left o) *
    mean (map (fun j => Rmax (terminal_price j - strike_price o) 0)
              (seq 0 (Z.to_nat pc))) in
  fst (day_by_day_price_simulation_noplot pc w) = Ok (Fin price)
  /\ ((10 <= pc)%Z -> fst (day_by_day_price_simulation pc w) = Ok (Fin price)).
Proof.
  intros Hsteps Hpc o n eps terminal_price price. split.
  - rewrite (noplot_run pc w Hsteps Hpc). reflexivity.
  - intro Hten. destruct (plot_run pc w Hsteps Hpc) as (w' & Hrun & _).
    rewrite Hrun. cbn [fst].
    replace (10 <=? pc)%Z with true by (symmetry; apply Z.leb_le; exact Hten).
    reflexivity.
Qed.

Lemma simulation_returns_discounted_mean_payoff_witness :
  exists price,
    fst (day_by_day_price_simulation_noplot 10 (start sample_option no_noise))
    = Ok (Fin price)
    /\ fst (day_by_day_price_simulation 10 (start sample_option no_noise))
       = Ok (Fin price).
Proof.
  eexists.
  destruct (simulation_returns_discounted_mean_payoff
              10 (start sample_option no_noise)) as [H1 H2].
  - cbn [opt start]. rewrite sample_steps. lia.
  - lia.
  - split; [exact H1 | apply H2; lia].
Defined.

(** C2: on real numbers [option_value(S, strike)] is [max(S - strike, 0)],
    a value computed without state and without error; in particular
    [option_value(1250, 1220) = 30] and [option_value(1000, 1220) = 0]. *)
Theorem option_value_is_call_payoff (S K : R) :
  option_value (Fin S) K = Fin (Rmax (S - K) 0)
  /\ option_value (Fin 1250) 1220 = Fin 30
  /\ option_value (Fin 1000) 1220 = Fin 0.
Proof.
  rewrite !option_value_Fin. unfold payoff. repeat split.
  - f_equal. rewrite Rmax_left by lra. lra.
  - f_equal. rewrite Rmax_right by lra. reflexivity.
Qed.

(** C3: on a contract of positive prices with [vol > 0] and
    [time_left > 0] the analytic pricer returns
    [S Phi(d1) - K e^(-rT) Phi(d2)], with
    [d1 = (ln(S/K) + (r + 0.5 sigma^2) T) / (sigma sqrt T)],
    [d2 = (ln(S/K) + (r - 0.5 sigma^2) T) / (sigma sqrt T)] and [Phi] the
    distribution function of the standard normal law; it changes nothing. *)
Theorem formula_bs_is_closed_form (w : world) :
  let o := opt w in
  0 < underlying_price o -> 0 < strike_price o ->
  0 < vol o -> 0 < time_left o ->
  let d1 :=
    (ln (underlying_price o / strike_price o)
     + (risk_free_rate o + 0.5 * vol o ^ 2) * time_left o)
    / (vol o * sqrt (time_left o)) in
  let d2 :=
    (ln (underlying_price o / strike_price o)
     + (risk_free_rate o - 0.5 * vol o ^ 2) * time_left o)
    / (vol o * sqrt (time_left o)) in
  option_price_formula_bs w
  = (Ok (Fin (underlying_price o * Phi d1
              - strike_price o * exp (- risk_free_rate o * time_left o) * Phi d2)),
     w).
Proof.
  intros o HS HK Hv Ht d1 d2.
  rewrite bs_eval by (apply Rgt_not_eq; exact HK).
  rewrite (bs_float_closed_form (opt w) HS HK Hv Ht). reflexivity.
Qed.

Lemma formula_bs_is_closed_form_witness :
  exists price,
    option_price_formula_bs (start sample_option no_noise)
    = (Ok (Fin price), start sample_option no_noise).
Proof.
  eexists.
  apply (formula_bs_is_closed_form (start sample_option no_noise));
    cbn [opt start sample_option underlying_price strike_price vol time_left]; lra.
Defined.

(** C4, as the code has it: run from the same state (the same contract and
    the same sequence of draws) with [step_count >= 0], the plotting
    simulator and the non-plotting one end with the same result exactly
    when [step_count = 0] or [path_count >= 10].  With [step_count = 0] both
    raise a zero-division error, whatever [path_count]; with
    [step_count >= 1] and [path_count >= 10] both return the same price.
    In both cases they leave the same paths, the same payoffs and the same
    position in the sequence of draws. *)
Theorem plot_and_noplot_agreement (pc : Z) (w : world) :
  (0 <= step_count (opt w))%Z ->
  (fst (day_by_day_price_simulation pc w)
   = fst (day_by_day_price_simulation_noplot pc w)
   <-> step_count (opt w) = 0%Z \/ (10 <= pc)%Z)
  /\ (step_count (opt w) = 0%Z ->
      fst (day_by_day_price_simulation pc w) = Raise ZeroDivisionError
      /\ fst (day_by_day_price_simulation_noplot pc w) = Raise ZeroDivisionError)
  /\ ((1 <= step_count (opt w))%Z -> (10 <= pc)%Z ->
      exists price,
        fst (day_by_day_price_simulation pc w) = Ok (Fin price)
        /\ fst (day_by_day_price_simulation_noplot pc w) = Ok (Fin price))
  /\ (step_count (opt w) = 0%Z \/ (10 <= pc)%Z ->
      same_core (snd (day_by_day_price_simulation_noplot pc w))
                (snd (day_by_day_price_simulation pc w))).
Proof.
  intro Hsteps.
  assert (Hzero : step_count (opt w) = 0%Z ->
            day_by_day_price_simulation pc w = (Raise ZeroDivisionError, w)
            /\ day_by_day_price_simulation_noplot pc w
               = (Raise ZeroDivisionError, w)).
  { intro H. split; [apply plot_zero_steps | apply noplot_zero_steps]; exact H. }
  assert (Hten : (1 <= step_count (opt w))%Z -> (10 <= pc)%Z ->
            exists price w',
              day_by_day_price_simulation pc w = (Ok (Fin price), w')
              /\ fst (day_by_day_price_simulation_noplot pc w) = Ok (Fin price)
              /\ same_core (snd (day_by_day_price_simulation_noplot pc w)) w').
  { intros H1 H10. assert (H2 : (1 <= pc)%Z) by lia.
    destruct (plot_run pc w H1 H2) as (w' & Hrun & A1 & A2 & A3 & A4 & A5).
    replace (10 <=? pc)%Z with true in Hrun by (symmetry; apply Z.leb_le; exact H10).
    eexists. exists w'. split; [exact Hrun |].
    rewrite (noplot_run pc w H1 H2). cbn [fst snd]. split; [reflexivity |].
    unfold same_core. fields. repeat split; assumption. }
  assert (Hagree : step_count (opt w) = 0%Z \/ (10 <= pc)%Z ->
            fst (day_by_day_price_simulation pc w)
            = fst (day_by_day_price_simulation_noplot pc w)
            /\ same_core (snd (day_by_day_price_simulation_noplot pc w))
                         (snd (day_by_day_price_simulation pc w))).
  { intro H.
    destruct (Z.eq_dec (step_count (opt w)) 0) as [E | N].
    - destruct (Hzero E) as [-> ->]. split; [reflexivity | apply same_core_refl].
    - destruct H as [E | H10]; [contradiction |].
      destruct (Hten ltac:(lia) H10) as (price & w' & Hrun & Hnp & Hcore).
      rewrite Hrun, Hnp. cbn [fst snd]. split; [reflexivity | exact Hcore]. }
  split; [| split; [| split]].
  - split; [| intro H; apply Hagree, H].
    intro Heq.
    destruct (Z.eq_dec (step_count (opt w)) 0) as [E | N]; [left; exact E |].
    destruct (Z_lt_le_dec pc 10) as [Hlt | H10]; [| right; exact H10].
    exfalso. assert (H1 : (1 <= step_count (opt w))%Z) by lia.
    destruct (Z_lt_le_dec pc 1) as [Hnone | H2].
    + destruct (plot_without_trial pc w H1 ltac:(lia)) as (w' & Hrun & _).
      rewrite Hrun, (noplot_without_trial pc w H1 ltac:(lia)) in Heq.
      cbn [fst] in Heq. destruct (pc =? 0)%Z; discriminate.
    + destruct (plot_run pc w H1 H2) as (w' & Hrun & _).
      replace (10 <=? pc)%Z with false in Hrun by (symmetry; apply Z.leb_gt; lia).
      rewrite Hrun, (noplot_run pc w H1 H2) in Heq. discriminate.
  - intro E. destruct (Hzero E) as [-> ->]. split; reflexivity.
  - intros H1 H10. destruct (Hten H1 H10) as (price & w' & Hrun & Hnp & _).
    exists price. rewrite Hrun. split; [reflexivity | exact Hnp].
  - intro H. apply Hagree, H.
Qed.

Lemma plot_and_noplot_agreement_witness :
  fst (day_by_day_price_simulation 10 (start sample_option no_noise))
  = fst (day_by_day_price_simulation_noplot 10 (start sample_option no_noise))
  /\ fst (day_by_day_price_simulation 5 (start short_option no_noise))
     = fst (day_by_day_price_simulation_noplot 5 (start short_option no_noise)).
Proof.
  split.
  - apply (plot_and_noplot_agreement 10 (start sample_option no_noise)).
    + cbn [opt start]. rewrite sample_steps. lia.
    + right. lia.
  - apply (plot_and_noplot_agreement 5 (start short_option no_noise)).
    + cbn [opt start]. rewrite short_steps. lia.
    + left. exact short_steps.
Defined.

(** C4 as stated fails: with one trial the plotting simulator raises an
    index error where the non-plotting one returns a price. *)
Lemma plot_and_noplot_differ_on_one_trial :
  fst (day_by_day_price_simulation 1 (start sample_option no_noise))
  = Raise IndexError
  /\ exists price,
       fst (day_by_day_price_simulation_noplot 1 (start sample_option no_noise))
       = Ok (Fin price).
Proof.
  assert (H1 : (1 <= step_count (opt (start sample_option no_noise)))%Z)
    by (cbn [opt start]; rewrite sample_steps; lia).
  assert (H2 : (1 <= 1)%Z) by lia.
  split.
  - destruct (plot_run 1 _ H1 H2) as (w' & Hrun & _). rewrite Hrun. reflexivity.
  - eexists. rewrite (noplot_run 1 _ H1 H2). reflexivity.
Qed.

(** C5: for a contract of at least one step, every path either simulator
    leaves holds [step_count + 1] prices, the first of them the price of the
    underlying, and there is one path per trial; with [time_left = 0.1616]
    that is 40 steps and 41 prices. *)
Theorem every_path_has_step_count_plus_one_prices (pc : Z) (w : world) :
  (1 <= step_count (opt w))%Z -> (1 <= pc)%Z ->
  paths_complete (opt w) (Z.to_nat pc)
                 (returns (snd (day_by_day_price_simulation pc w)))
  /\ paths_complete (opt w) (Z.to_nat pc)
                    (returns (snd (day_by_day_price_simulation_noplot pc w)))
  /\ (time_left (opt w) = 0.1616 ->
      step_count (opt w) = 40%Z /\ S (Z.to_nat (step_count (opt w))) = 41%nat).
Proof.
  intros Hsteps Hpc.
  destruct (plot_run pc w Hsteps Hpc) as (w' & Hrun & _ & _ & _ & A4 & _).
  split; [| split].
  - rewrite Hrun. cbn [snd]. rewrite A4. apply rows_complete.
  - rewrite (noplot_run pc w Hsteps Hpc). cbn [snd]. fields. apply rows_complete.
  - intro HT. assert (E : step_count (opt w) = 40%Z).
    { unfold step_count. rewrite HT. symmetry. apply Int_part_spec. lra. }
    split; [exact E | rewrite E; reflexivity].
Qed.

Lemma every_path_has_step_count_plus_one_prices_witness :
  paths_complete sample_option 3
    (returns (snd (day_by_day_price_simulation_noplot 3 (start sample_option no_noise))))
  /\ step_count sample_option = 40%Z.
Proof.
  destruct (every_path_has_step_count_plus_one_prices
              3 (start sample_option no_noise)) as (_ & H2 & H3).
  - cbn [opt start]. rewrite sample_steps. lia.
  - lia.
  - split; [exact H2 | apply H3; reflexivity].
Defined.

(** C6, as the code has it: on a contract of positive prices with
    [vol >= 0] and [time_left >= 0], the divisor [vol * sqrt(time_left)] of
    lines 131 and 135 is zero exactly when [vol = 0] or [time_left = 0].
    When it is not, the quotient is a finite number and the pricer returns
    a finite price.  When it is, nothing is raised: the quotient is [inf],
    and the pricer returns [nan] only if [ln(S/K) + r T = 0]; otherwise it
    returns the finite number [S - K e^(-rT)] when [ln(S/K) + r T > 0],
    and [0] when it is negative. *)
Theorem formula_bs_divisor (w : world) :
  let o := opt w in
  0 < underlying_price o -> 0 < strike_price o ->
  0 <= vol o -> 0 <= time_left o ->
  let s := vol o * sqrt (time_left o) in
  let a := ln (underlying_price o / strike_price o)
           + risk_free_rate o * time_left o in
  fmul (Fin (vol o)) (np_sqrt (time_left o)) = Fin s
  /\ (s = 0 <-> vol o = 0 \/ time_left o = 0)
  /\ (s <> 0 ->
      np_div (Fin 1) (Fin s) = Fin (1 / s)
      /\ exists price, option_price_formula_bs w = (Ok (Fin price), w))
  /\ (s = 0 ->
      np_div (Fin 1) (Fin s) = PInf
      /\ option_price_formula_bs w
         = (Ok (if Req_dec_T a 0 then NaN
                else if Rlt_dec 0 a
                     then Fin (underlying_price o
                               - strike_price o
                                 * exp (- risk_free_rate o * time_left o))
                     else Fin 0),
            w)).
Proof.
  intros o HS HK Hv Ht s a.
  assert (Hiff : s = 0 <-> vol o = 0 \/ time_left o = 0).
  { unfold s. split.
    - intro H. apply Rmult_integral in H. destruct H as [H | H]; [left; exact H |].
      right. apply sqrt_eq_0; assumption.
    - intros [-> | ->]; [ring | rewrite sqrt_0; ring]. }
  split; [| split; [exact Hiff | split]].
  - rewrite np_sqrt_nonneg by exact Ht. reflexivity.
  - intro Hs. split; [apply np_div_Fin; exact Hs |].
    assert (Hv' : 0 < vol o).
    { destruct Hv as [Hv | Hv]; [exact Hv |]. exfalso. apply Hs, Hiff. left. auto. }
    assert (Ht' : 0 < time_left o).
    { destruct Ht as [Ht | Ht]; [exact Ht |]. exfalso. apply Hs, Hiff. right. auto. }
    eexists. rewrite bs_eval by (apply Rgt_not_eq; exact HK).
    rewrite (bs_float_closed_form (opt w) HS HK Hv' Ht'). reflexivity.
  - intro Hs. split.
    + rewrite Hs. unfold np_div.
      destruct (Req_dec_T 0 0) as [_ | N]; [| contradiction].
      apply signed_inf_pos. lra.
    + rewrite bs_eval by (apply Rgt_not_eq; exact HK).
      rewrite (bs_float_degenerate (opt w) HS HK Hv Ht (proj1 Hiff Hs)).
      reflexivity.
Qed.

Lemma formula_bs_divisor_witness :
  option_price_formula_bs (start expiring_option no_noise)
  = (Ok (Fin 0), start expiring_option no_noise)
  /\ exists price,
       option_price_formula_bs (start sample_option no_noise)
       = (Ok (Fin price), start sample_option no_noise).
Proof.
  split.
  - destruct (formula_bs_divisor (start expiring_option no_noise))
      as (_ & _ & _ & H);
      try (cbn [opt start expiring_option underlying_price strike_price vol
                time_left]; lra).
    destruct H as [_ H].
    { cbn [opt start expiring_option vol time_left]. rewrite sqrt_0. ring. }
    rewrite H.
    cbn [opt start expiring_option underlying_price strike_price risk_free_rate
         time_left].
    assert (Ha : ln (1200 / 1220) + 0.0014 * 0 < 0)
      by (generalize sample_moneyness; lra).
    destruct (Req_dec_T (ln (1200 / 1220) + 0.0014 * 0) 0) as [E | _]; [lra |].
    destruct (Rlt_dec 0 (ln (1200 / 1220) + 0.0014 * 0)) as [P | _]; [lra |].
    reflexivity.
  - destruct (formula_bs_divisor (start sample_option no_noise))
      as (_ & _ & H & _);
      try (cbn [opt start sample_option underlying_price strike_price vol
                time_left]; lra).
    destruct H as [_ H]; [| exact H].
    cbn [opt start sample_option vol time_left].
    apply Rgt_not_eq, Rmult_lt_0_compat; [lra | apply sqrt_lt_R0; lra].
Defined.

(** C6 as stated fails: at maturity ([time_left = 0]) the pricer of the
    sample contract returns the finite price [0], neither [nan] nor an
    error. *)
Lemma formula_bs_finite_at_maturity :
  time_left expiring_option = 0
  /\ option_price_formula_bs (start expiring_option no_noise)
     = (Ok (Fin 0), start expiring_option no_noise).
Proof.
  split; [reflexivity |].
  rewrite bs_eval
    by (cbn [opt start expiring_option strike_price]; lra).
  cbn [opt start].
  rewrite bs_float_degenerate;
    try (cbn [expiring_option underlying_price strike_price vol time_left]; lra).
  cbn [expiring_option underlying_price strike_price risk_free_rate time_left].
  assert (Ha : ln (1200 / 1220) + 0.0014 * 0 < 0)
    by (generalize sample_moneyness; lra).
  destruct (Req_dec_T (ln (1200 / 1220) + 0.0014 * 0) 0) as [E | _]; [lra |].
  destruct (Rlt_dec 0 (ln (1200 / 1220) + 0.0014 * 0)) as [P | _]; [lra |].
  reflexivity.
Qed.

(** C7, as the code has it: when [floor(time_left * 252) = 0] both
    simulators raise a zero-division error at [interval = time / step_num]
    (lines 50 and 106), before a path exists: the state is left as it was.
    No guard comes before the division. *)
Theorem zero_steps_raise_zero_division (pc : Z) (w : world) :
  step_count (opt w) = 0%Z ->
  py_int (time_left (opt w) * 252) = 0%Z
  /\ day_by_day_price_simulation pc w = (Raise ZeroDivisionError, w)
  /\ day_by_day_price_simulation_noplot pc w = (Raise ZeroDivisionError, w).
Proof.
  intro H. split; [| split].
  - rewrite step_num_is_step_count by lia. exact H.
  - apply plot_zero_steps. exact H.
  - apply noplot_zero_steps. exact H.
Qed.

Lemma zero_steps_raise_zero_division_witness :
  day_by_day_price_simulation_noplot 100 (start short_option no_noise)
  = (Raise ZeroDivisionError, start short_option no_noise).
Proof.
  apply (zero_steps_raise_zero_division 100 (start short_option no_noise)).
  cbn [opt start]. exact short_steps.
Defined.

(** C7 as stated fails: for [time_left = 0.001], where
    [floor(time_left * 252) = 0], no path is produced, not even one of a
    single price; the simulator raises and the list of paths stays empty. *)
Lemma no_zero_step_path :
  step_count short_option = 0%Z
  /\ fst (day_by_day_price_simulation_noplot 1 (start short_option no_noise))
     = Raise ZeroDivisionError
  /\ fst (day_by_day_price_simulation 1 (start short_option no_noise))
     = Raise ZeroDivisionError
  /\ returns (snd (day_by_day_price_simulation_noplot 1
                     (start short_option no_noise))) = []
  /\ returns (snd (day_by_day_price_simulation 1
                     (start short_option no_noise))) = [].
Proof.
  assert (H : step_count (opt (start short_option no_noise)) = 0%Z)
    by exact short_steps.
  rewrite (noplot_zero_steps 1 _ H), (plot_zero_steps 1 _ H).
  repeat split. exact short_steps.
Qed.

(** C8: the analytic pricer and both simulators leave the contract they are
    given as it is, all five fields, however they end; the fields are those
    the constructor set. *)
Theorem contract_is_never_mutated
    (S K r sigma T : R) (pc : Z) (w : world) :
  let built := snd (new_option_attributes S K r sigma T w) in
  opt built = Build_option_attributes S K r sigma T
  /\ (forall w0 : world,
        opt (snd (option_price_formula_bs w0)) = opt w0
        /\ opt (snd (day_by_day_price_simulation pc w0)) = opt w0
        /\ opt (snd (day_by_day_price_simulation_noplot pc w0)) = opt w0)
  /\ underlying_price (opt (snd (day_by_day_price_simulation_noplot pc
        (snd (option_price_formula_bs built))))) = S
  /\ strike_price (opt (snd (day_by_day_price_simulation_noplot pc
        (snd (option_price_formula_bs built))))) = K
  /\ risk_free_rate (opt (snd (day_by_day_price_simulation_noplot pc
        (snd (option_price_formula_bs built))))) = r
  /\ vol (opt (snd (day_by_day_price_simulation_noplot pc
        (snd (option_price_formula_bs built))))) = sigma
  /\ time_left (opt (snd (day_by_day_price_simulation_noplot pc
        (snd (option_price_formula_bs built))))) = T.
Proof.
  intro built.
  assert (Hb : opt built = Build_option_attributes S K r sigma T) by reflexivity.
  split; [exact Hb |]. split.
  - intro w0. split; [apply keeps_opt_formula_bs |].
    split; [apply keeps_opt_simulation | apply keeps_opt_simulation_noplot].
  - rewrite keeps_opt_simulation_noplot, keeps_opt_formula_bs, Hb.
    repeat split.
Qed.

(** C9: for a contract of at least one step and one to nine trials, the
    plotting simulator raises an index error, and does so after the paths
    were computed: all the draws are consumed, and one path and one payoff
    per trial are there; the non-plotting simulator returns a price for the
    same input. *)
Theorem plotting_fails_below_ten_trials (pc : Z) (w : world) :
  (1 <= step_count (opt w))%Z -> (1 <= pc <= 9)%Z ->
  (exists w',
     day_by_day_price_simulation pc w = (Raise IndexError, w')
     /\ drawn w' = (drawn w + Z.to_nat pc * Z.to_nat (step_count (opt w)))%nat
     /\ paths_complete (opt w) (Z.to_nat pc) (returns w')
     /\ length (final_value w') = Z.to_nat pc)
  /\ exists price,
       fst (day_by_day_price_simulation_noplot pc w) = Ok (Fin price).
Proof.
  intros Hsteps [Hpc Hnine]. split.
  - destruct (plot_run pc w Hsteps Hpc) as (w' & Hrun & _ & _ & A3 & A4 & A5).
    exists w'.
    replace (10 <=? pc)%Z with false in Hrun by (symmetry; apply Z.leb_gt; lia).
    split; [exact Hrun |]. split; [exact A3 |]. split.
    + rewrite A4. apply rows_complete.
    + rewrite A5, length_map. apply payoffs_length.
  - eexists. rewrite (noplot_run pc w Hsteps Hpc). reflexivity.
Qed.

Lemma plotting_fails_below_ten_trials_witness :
  fst (day_by_day_price_simulation 9 (start sample_option no_noise))
  = Raise IndexError.
Proof.
  destruct (plotting_fails_below_ten_trials 9 (start sample_option no_noise))
    as [(w' & Hrun & _) _].
  - cbn [opt start]. rewrite sample_steps. lia.
  - lia.
  - rewrite Hrun. reflexivity.
Defined.

(** C10: for a contract of at least one step and at least one trial, the
    price the non-plotting simulator returns is a finite number that is not
    negative; so is every price the plotting simulator returns, and from
    ten trials on it returns one. *)
Theorem simulation_price_is_nonnegative (pc : Z) (w : world) :
  (1 <= step_count (opt w))%Z -> (1 <= pc)%Z ->
  (exists price,
     fst (day_by_day_price_simulation_noplot pc w) = Ok (Fin price)
     /\ 0 <= price)
  /\ (forall v, fst (day_by_day_price_simulation pc w) = Ok v ->
        exists price, v = Fin price /\ 0 <= price)
  /\ ((10 <= pc)%Z ->
      exists price,
        fst (day_by_day_price_simulation pc w) = Ok (Fin price) /\ 0 <= price).
Proof.
  intros Hsteps Hpc. split; [| split].
  - eexists. rewrite (noplot_run pc w Hsteps Hpc). cbn [fst].
    split; [reflexivity | apply discounted_mean_nonneg].
  - intros v Hv.
    destruct (plot_run pc w Hsteps Hpc) as (w' & Hrun & _).
    rewrite Hrun in Hv. cbn [fst] in Hv.
    destruct (10 <=? pc)%Z; [| discriminate].
    injection Hv as <-. eexists.
    split; [reflexivity | apply discounted_mean_nonneg].
  - intro Hten.
    destruct (plot_run pc w Hsteps Hpc) as (w' & Hrun & _).
    rewrite Hrun. cbn [fst].
    replace (10 <=? pc)%Z with true by (symmetry; apply Z.leb_le; exact Hten).
    eexists. split; [reflexivity | apply discounted_mean_nonneg].
Qed.

Lemma simulation_price_is_nonnegative_witness :
  exists price,
    fst (day_by_day_price_simulation_noplot 1 (start sample_option no_noise))
    = Ok (Fin price)
    /\ 0 <= price.
Proof.
  destruct (simulation_price_is_nonnegative 1 (start sample_option no_noise))
    as [H _].
  - cbn [opt start]. rewrite sample_steps. lia.
  - lia.
  - exact H.
Defined.

(** ** The payoff on every float *)

(** X1: [option_value] never returns a negative number, nor [-inf]: on
    [-inf] it returns [0], on [+inf] it returns [+inf], on [nan] it returns
    [nan] (Python's [max] keeps its first argument when the comparison with
    [nan] is false), and [nan] comes from [nan] only. *)
Theorem option_value_never_negative (x : float64) (K : R) :
  option_value NInf K = Fin 0
  /\ option_value PInf K = PInf
  /\ option_value NaN K = NaN
  /\ match option_value x K with
     | Fin p => 0 <= p
     | PInf => True
     | NInf => False
     | NaN => x = NaN
     end.
Proof.
  assert (Hneg : option_value NInf K = Fin 0) by reflexivity.
  repeat split; try reflexivity.
  destruct x as [s | | |].
  - rewrite option_value_Fin. apply payoff_nonneg.
  - exact I.
  - rewrite Hneg. lra.
  - reflexivity.
Qed.

(** X2: the payoff grows with the terminal price, and by no more than the
    price does. *)
Theorem option_value_monotone (S1 S2 K : R) :
  S1 <= S2 ->
  exists p1 p2,
    option_value (Fin S1) K = Fin p1 /\ option_value (Fin S2) K = Fin p2
    /\ p1 <= p2 /\ p2 - p1 <= S2 - S1.
Proof.
  intro H. exists (payoff S1 K), (payoff S2 K).
  rewrite !option_value_Fin. repeat split; unfold payoff, Rmax;
    destruct (Rle_dec (S1 - K) 0); destruct (Rle_dec (S2 - K) 0); lra.
Qed.

Lemma option_value_monotone_witness :
  exists p1 p2,
    option_value (Fin 1000) 1220 = Fin p1 /\ option_value (Fin 1250) 1220 = Fin p2
    /\ p1 <= p2 /\ p2 - p1 <= 1250 - 1000.
Proof. apply (option_value_monotone 1000 1250 1220). lra. Defined.

(** ** The stream of draws *)

(** X3: a run of the non-plotting simulator consumes [path_count *
    step_count] draws, and a second run continues the sequence where the
    first stopped: its price is the discounted mean payoff over the draws
    that follow, and its paths replace those of the first run. *)
Theorem consecutive_runs_continue_the_draws (pc1 pc2 : Z) (w : world) :
  (1 <= step_count (opt w))%Z -> (1 <= pc1)%Z -> (1 <= pc2)%Z ->
  let o := opt w in
  let n := Z.to_nat (step_count o) in
  let w1 := snd (day_by_day_price_simulation_noplot pc1 w) in
  let w2 := snd (day_by_day_price_simulation_noplot pc2 w1) in
  let later := draw (gen w) (drawn w + Z.to_nat pc1 * n) n in
  drawn w1 = (drawn w + Z.to_nat pc1 * n)%nat
  /\ drawn w2 = (drawn w + (Z.to_nat pc1 + Z.to_nat pc2) * n)%nat
  /\ fst (day_by_day_price_simulation_noplot pc2 w1)
     = Ok (Fin (discounted_mean_payoff o later (Z.to_nat pc2)))
  /\ length (returns w2) = Z.to_nat pc2.
Proof.
  intros Hsteps H1 H2 o n w1 w2 later.
  assert (E1 : w1 = snd (day_by_day_price_simulation_noplot pc1 w)) by reflexivity.
  rewrite (noplot_run pc1 w Hsteps H1) in E1. cbn [snd] in E1.
  assert (O1 : opt w1 = opt w) by (rewrite E1; reflexivity).
  assert (G1 : gen w1 = gen w) by (rewrite E1; reflexivity).
  assert (D1 : drawn w1 = (drawn w + Z.to_nat pc1 * n)%nat) by (rewrite E1; reflexivity).
  assert (Hsteps1 : (1 <= step_count (opt w1))%Z) by (rewrite O1; exact Hsteps).
  assert (E2 : w2 = snd (day_by_day_price_simulation_noplot pc2 w1)) by reflexivity.
  rewrite (noplot_run pc2 w1 Hsteps1 H2) in E2. cbn [snd] in E2.
  split; [exact D1 |]. split; [| split].
  - rewrite E2. fields. rewrite D1, O1. unfold n, o. lia.
  - rewrite (noplot_run pc2 w1 Hsteps1 H2). cbn [fst].
    rewrite O1, G1, D1. reflexivity.
  - rewrite E2. fields. rewrite length_map, length_seq. reflexivity.
Qed.

Lemma consecutive_runs_continue_the_draws_witness :
  drawn (snd (day_by_day_price_simulation_noplot 200
               (snd (day_by_day_price_simulation_noplot 100
                       (start sample_option no_noise)))))
  = (0 + (Z.to_nat 100 + Z.to_nat 200) * Z.to_nat (step_count sample_option))%nat.
Proof.
  apply (consecutive_runs_continue_the_draws 100 200 (start sample_option no_noise)).
  - cbn [opt start]. rewrite sample_steps. lia.
  - lia.
  - lia.
Defined.

(** ** The shape of a path *)

Lemma path_of_nth (o : option_attributes) (eps : nat -> nat -> R) (j i : nat) :
  (i <= Z.to_nat (step_count o))%nat ->
  nth_error (map Fin (path_of o eps j)) i = Some (Fin (price_at o eps j i)).
Proof.
  intro H. unfold path_of. rewrite map_map.
  apply (nth_error_seq_map (fun i => Fin (price_at o eps j i))). lia.
Qed.

Lemma rows_nth (o : option_attributes) (eps : nat -> nat -> R) (m j : nat) :
  (j < m)%nat ->
  nth_error (map (fun j => map Fin (path_of o eps j)) (seq 0 m)) j
  = Some (map Fin (path_of o eps j)).
Proof.
  intro H. apply (nth_error_seq_map (fun j => map Fin (path_of o eps j))). exact H.
Qed.

(** X4: in the paths a run leaves, every price after the first is the one
    before it times [exp((r - 0.5 sigma^2) dt + sigma sqrt(dt) eps)], with
    [eps] the draw of that trial and step: draw number
    [j * step_count + i] of the run for step [i + 1] of trial [j]. *)
Theorem paths_follow_the_recurrence (pc : Z) (w : world) (j i : nat) :
  (1 <= step_count (opt w))%Z -> (1 <= pc)%Z ->
  (j < Z.to_nat pc)%nat -> (i < Z.to_nat (step_count (opt w)))%nat ->
  let o := opt w in
  let n := Z.to_nat (step_count o) in
  let eps := gen w (drawn w + j * n + i)%nat in
  exists path p,
    nth_error (returns (snd (day_by_day_price_simulation_noplot pc w))) j
    = Some path
    /\ nth_error path i = Some (Fin p)
    /\ nth_error path (S i)
       = Some (Fin (p * exp ((risk_free_rate o - 0.5 * vol o ^ 2) * dt o
                            + vol o * sqrt (dt o) * eps))).
Proof.
  intros Hsteps Hpc Hj Hi o n eps.
  rewrite (noplot_run pc w Hsteps Hpc). cbn [snd]. fields.
  eexists. eexists. split; [apply rows_nth; exact Hj |].
  split; [apply path_of_nth; lia |].
  rewrite path_of_nth by lia. unfold price_at. cbn [product].
  do 2 f_equal. unfold growth, draw, eps, n, o.
  replace (S i - 1)%nat with i by lia. ring.
Qed.

Lemma paths_follow_the_recurrence_witness :
  exists path p,
    nth_error (returns (snd (day_by_day_price_simulation_noplot 3
                               (start sample_option no_noise)))) 2
    = Some path
    /\ nth_error path 39 = Some (Fin p)
    /\ nth_error path 40
       = Some (Fin (p * exp ((0.0014 - 0.5 * 0.2121 ^ 2) * dt sample_option
                            + 0.2121 * sqrt (dt sample_option) * 0))).
Proof.
  apply (paths_follow_the_recurrence 3 (start sample_option no_noise) 2 39).
  - cbn [opt start]. rewrite sample_steps. lia.
  - lia.
  - lia.
  - cbn [opt start]. rewrite sample_steps. lia.
Defined.

(** ** Without volatility *)

Lemma product_const (n : nat) (c : R) :
  product n (fun _ => exp c) = exp (INR n * c).
Proof.
  induction n as [| n IH]; cbn [product].
  - cbn [INR]. rewrite Rmult_0_l, exp_0. reflexivity.
  - rewrite IH, <- exp_plus, S_INR. f_equal. ring.
Qed.

Lemma Rsum_const (m : nat) (c : R) :
  Rsum (map (fun _ : nat => c) (seq 0 m)) = INR m * c.
Proof.
  generalize 0%nat. induction m as [| m IH]; intro s; cbn [seq map Rsum fold_right].
  - cbn [INR]. ring.
  - fold (Rsum (map (fun _ : nat => c) (seq (S s) m))). rewrite IH, S_INR. ring.
Qed.

(** Without volatility every growth factor is [exp(r dt)]. *)
Lemma noplot_without_volatility (pc : Z) (w : world) :
  (1 <= step_count (opt w))%Z -> (1 <= pc)%Z -> vol (opt w) = 0 ->
  let o := opt w in
  fst (day_by_day_price_simulation_noplot pc w)
  = Ok (Fin (exp (- risk_free_rate o * time_left o)
             * Rmax (underlying_price o * exp (risk_free_rate o * time_left o)
                     - strike_price o) 0)).
Proof.
  intros Hsteps Hpc Hvol o.
  rewrite (noplot_run pc w Hsteps Hpc). cbn [fst]. do 2 f_equal.
  unfold discounted_mean_payoff. f_equal.
  unfold mean, payoffs_of, terminal, price_at.
  assert (Hg : forall e, growth (opt w) e = exp (risk_free_rate (opt w) * dt (opt w))).
  { intro e. unfold growth. rewrite Hvol. f_equal. ring. }
  assert (Hp : forall j : nat,
            product (Z.to_nat (step_count (opt w)))
                    (fun t => growth (opt w)
                                (draw (gen w) (drawn w)
                                      (Z.to_nat (step_count (opt w))) j t))
            = exp (risk_free_rate (opt w) * time_left (opt w))).
  { intro j.
    replace (fun t : nat =>
               growth (opt w)
                 (draw (gen w) (drawn w) (Z.to_nat (step_count (opt w))) j t))
      with (fun _ : nat => exp (risk_free_rate (opt w) * dt (opt w))).
    - rewrite product_const. f_equal. unfold dt.
      rewrite INR_IZR_INZ, Z2Nat.id by lia. field.
      apply not_0_IZR. lia.
    - apply FunctionalExtensionality.functional_extensionality.
      intro t. symmetry. apply Hg. }
  replace (map (fun j : nat =>
              payoff (underlying_price (opt w) *
                      product (Z.to_nat (step_count (opt w)))
                        (fun t => growth (opt w)
                           (draw (gen w) (drawn w)
                              (Z.to_nat (step_count (opt w))) j t)))
                     (strike_price (opt w))) (seq 0 (Z.to_nat pc)))
    with (map (fun _ : nat =>
              payoff (underlying_price (opt w)
                      * exp (risk_free_rate (opt w) * time_left (opt w)))
                     (strike_price (opt w))) (seq 0 (Z.to_nat pc))).
  - rewrite Rsum_const, length_map, length_seq. unfold payoff, o. field.
    apply not_0_INR. lia.
  - apply map_ext. intro j. rewrite Hp. reflexivity.
Qed.

(** X6: with [vol = 0] the draws do not matter: every terminal price is
    [S e^(rT)], and the simulator returns [e^(-rT) max(S e^(rT) - K, 0)]. *)
Theorem zero_volatility_price (pc : Z) (w : world) :
  (1 <= step_count (opt w))%Z -> (1 <= pc)%Z -> vol (opt w) = 0 ->
  let o := opt w in
  fst (day_by_day_price_simulation_noplot pc w)
  = Ok (Fin (exp (- risk_free_rate o * time_left o)
             * Rmax (underlying_price o * exp (risk_free_rate o * time_left o)
                     - strike_price o) 0)).
Proof. apply noplot_without_volatility. Qed.

Lemma zero_volatility_price_witness :
  fst (day_by_day_price_simulation_noplot 5
         (start (Build_option_attributes 1200 1220 0.0014 0 0.1616) no_noise))
  = Ok (Fin (exp (Ropp 0.0014 * 0.1616)
             * Rmax (1200 * exp (0.0014 * 0.1616) - 1220) 0)).
Proof.
  apply (zero_volatility_price 5
           (start (Build_option_attributes 1200 1220 0.0014 0 0.1616) no_noise)).
  - cbn [opt start]. unfold step_count. cbn [time_left].
    replace (Int_part (0.1616 * 252)) with 40%Z; [lia |].
    apply Int_part_spec. lra.
  - lia.
  - reflexivity.
Defined.

(** ** No trial *)

(** X7: with at least one step and [path_count <= 0] no trial is run and
    no draw consumed; the non-plotting simulator then divides the empty sum
    by [float(path_count)]: a zero-division error for [path_count = 0], and
    the price [0] for a negative [path_count]. *)
Theorem no_trial_noplot (pc : Z) (w : world) :
  (1 <= step_count (opt w))%Z -> (pc <= 0)%Z ->
  day_by_day_price_simulation_noplot pc w
  = ((if (pc =? 0)%Z then Raise ZeroDivisionError else Ok (Fin 0)),
     set_final_value [] (set_returns [] w)).
Proof. apply noplot_without_trial. Qed.

Lemma no_trial_noplot_witness :
  day_by_day_price_simulation_noplot 0 (start sample_option no_noise)
  = (Raise ZeroDivisionError,
     set_final_value [] (set_returns [] (start sample_option no_noise))).
Proof.
  apply (no_trial_noplot 0 (start sample_option no_noise)).
  - cbn [opt start]. rewrite sample_steps. lia.
  - lia.
Defined.

(** X8: with at least one step and [path_count <= 0] the plotting
    simulator shows the empty first figure and then raises an index error
    at [returns[4]]; it consumes no draw. *)
Theorem no_trial_plot (pc : Z) (w : world) :
  (1 <= step_count (opt w))%Z -> (pc <= 0)%Z ->
  exists w',
    day_by_day_price_simulation pc w = (Raise IndexError, w')
    /\ drawn w' = drawn w /\ returns w' = [] /\ final_value w' = []
    /\ figure w' = []
    /\ shown w' = shown w ++ [figure w ++
                              [Title "Paths of All Simulations";
                               XLabel "Number of Days From Start";
                               YLabel "Underlying Asset Price"]].
Proof. apply plot_without_trial. Qed.

Lemma no_trial_plot_witness :
  exists w',
    day_by_day_price_simulation 0 (start sample_option no_noise)
    = (Raise IndexError, w') /\ drawn w' = 0%nat.
Proof.
  destruct (no_trial_plot 0 (start sample_option no_noise))
    as (w' & Hrun & Hd & _).
  - cbn [opt start]. rewrite sample_steps. lia.
  - lia.
  - exists w'. split; [exact Hrun | exact Hd].
Defined.

(** ** The formula at the edges of its domain *)

(** X9: a strike of zero makes the formula raise a zero-division error at
    [underlying_price / strike_price] (line 132), whatever the other
    fields; the state is left as it was. *)
Theorem formula_bs_zero_strike (w : world) :
  strike_price (opt w) = 0 ->
  option_price_formula_bs w = (Raise ZeroDivisionError, w).
Proof. apply bs_zero_strike. Qed.

Lemma formula_bs_zero_strike_witness :
  option_price_formula_bs
    (start (Build_option_attributes 1200 0 0.0014 0.2121 0.1616) no_noise)
  = (Raise ZeroDivisionError,
     start (Build_option_attributes 1200 0 0.0014 0.2121 0.1616) no_noise).
Proof.
  apply (formula_bs_zero_strike
           (start (Build_option_attributes 1200 0 0.0014 0.2121 0.1616) no_noise)).
  reflexivity.
Defined.

(** X10: an underlying worth nothing prices the call at [0]: with
    [underlying_price = 0], a strike other than zero, [vol > 0] and
    [time_left > 0], [np.log(0)] is [-inf], both [d1] and [d2] are [-inf],
    and the formula returns [0]. *)
Theorem formula_bs_worthless_underlying (w : world) :
  underlying_price (opt w) = 0 -> strike_price (opt w) <> 0 ->
  0 < vol (opt w) -> 0 < time_left (opt w) ->
  option_price_formula_bs w = (Ok (Fin 0), w).
Proof.
  intros HS HK Hv Ht. rewrite (bs_eval w HK). do 2 f_equal.
  unfold bs_float. cbv zeta.
  assert (Hsc := scale_pos (opt w) Hv Ht).
  rewrite np_sqrt_nonneg by lra. cbn [fmul].
  rewrite np_div_Fin by lra.
  assert (Hlog : np_log (underlying_price (opt w) / strike_price (opt w)) = NInf).
  { rewrite HS. unfold Rdiv. rewrite Rmult_0_l. unfold np_log.
    destruct (Rlt_dec 0 0) as [F | _]; [lra |].
    destruct (Rlt_dec 0 0) as [F | _]; [lra | reflexivity]. }
  rewrite Hlog. cbn [fadd fmul].
  assert (Hinv : 0 < 1 / (vol (opt w) * sqrt (time_left (opt w)))).
  { apply Rdiv_lt_0_compat; lra. }
  rewrite signed_inf_neg by lra.
  cbn [norm_cdf np_exp fmul fsub fneg fadd]. f_equal. ring.
Qed.

Lemma formula_bs_worthless_underlying_witness :
  option_price_formula_bs
    (start (Build_option_attributes 0 1220 0.0014 0.2121 0.1616) no_noise)
  = (Ok (Fin 0),
     start (Build_option_attributes 0 1220 0.0014 0.2121 0.1616) no_noise).
Proof.
  apply (formula_bs_worthless_underlying
           (start (Build_option_attributes 0 1220 0.0014 0.2121 0.1616) no_noise));
    cbn [opt start underlying_price strike_price vol time_left]; lra.
Defined.

(** X11: prices of opposite signs give [nan]: [np.log] of the negative
    quotient is [nan], and it reaches the price, for any volatility and
    time. *)
Theorem formula_bs_negative_quotient (w : world) :
  strike_price (opt w) <> 0 ->
  underlying_price (opt w) / strike_price (opt w) < 0 ->
  option_price_formula_bs w = (Ok NaN, w).
Proof.
  intros HK Hq. rewrite (bs_eval w HK). do 2 f_equal.
  unfold bs_float. cbv zeta.
  assert (Hlog : np_log (underlying_price (opt w) / strike_price (opt w)) = NaN).
  { unfold np_log.
    destruct (Rlt_dec 0 (underlying_price (opt w) / strike_price (opt w)));
      [lra |].
    destruct (Rlt_dec (underlying_price (opt w) / strike_price (opt w)) 0);
      [reflexivity | lra]. }
  rewrite Hlog. cbn [fadd].
  assert (Hnan : forall x, fmul x NaN = NaN) by (intros [? | | |]; reflexivity).
  rewrite Hnan. cbn [norm_cdf fmul]. reflexivity.
Qed.

Lemma formula_bs_negative_quotient_witness :
  option_price_formula_bs
    (start (Build_option_attributes (-1200) 1220 0.0014 0.2121 0.1616) no_noise)
  = (Ok NaN,
     start (Build_option_attributes (-1200) 1220 0.0014 0.2121 0.1616) no_noise).
Proof.
  apply (formula_bs_negative_quotient
           (start (Build_option_attributes (-1200) 1220 0.0014 0.2121 0.1616)
                  no_noise));
    cbn [opt start underlying_price strike_price]; lra.
Defined.

(** ** What the calls leave alone *)

Lemma reads_only_ret {A} (a : A) : reads_only (ret a).
Proof. intro w. reflexivity. Qed.

Lemma reads_only_attr (f : option_attributes -> R) : reads_only (attr f).
Proof. intro w. reflexivity. Qed.

Lemma reads_only_py_div (a b : R) : reads_only (py_div a b).
Proof. intro w. unfold py_div. destruct (Req_dec_T b 0); reflexivity. Qed.

Lemma reads_only_bind {A B} (m : M A) (k : A -> M B) :
  reads_only m -> (forall a, reads_only (k a)) -> reads_only (bind m k).
Proof.
  intros Hm Hk w. unfold bind. specialize (Hm w).
  destruct (m w) as [[a | e] w1]; cbn [snd] in *.
  - rewrite Hk. exact Hm.
  - exact Hm.
Qed.

(** X12: the analytic pricer only reads: whatever the contract and however
    the call ends, the state after it is the state before it; it consumes
    no draw, keeps no path and draws nothing. *)
Theorem formula_bs_reads_only : reads_only option_price_formula_bs.
Proof.
  unfold option_price_formula_bs. cbv zeta.
  repeat first
    [ apply reads_only_ret
    | apply reads_only_attr
    | apply reads_only_py_div
    | apply reads_only_bind; [| intro] ].
Qed.

Lemma keeps_plots_ret {A} (a : A) : keeps_plots (ret a).
Proof. intro w. split; reflexivity. Qed.

Lemma keeps_plots_raise {A} (e : exn) : keeps_plots (@raise A e).
Proof. intro w. split; reflexivity. Qed.

Lemma keeps_plots_gets {A} (f : world -> A) : keeps_plots (gets f).
Proof. intro w. split; reflexivity. Qed.

Lemma keeps_plots_attr (f : option_attributes -> R) : keeps_plots (attr f).
Proof. intro w. split; reflexivity. Qed.

Lemma keeps_plots_modify (f : world -> world) :
  (forall w, figure (f w) = figure w /\ shown (f w) = shown w) ->
  keeps_plots (modify f).
Proof. intros H w. apply H. Qed.

Lemma keeps_plots_bind {A B} (m : M A) (k : A -> M B) :
  keeps_plots m -> (forall a, keeps_plots (k a)) -> keeps_plots (bind m k).
Proof.
  intros Hm Hk w. unfold bind. specialize (Hm w).
  destruct (m w) as [[a | e] w1]; cbn [snd] in *.
  - destruct (Hk a w1) as [F S]. destruct Hm as [F1 S1].
    split; congruence.
  - exact Hm.
Qed.

Lemma keeps_plots_for_each {A} (xs : list A) (body : A -> M unit) :
  (forall x, keeps_plots (body x)) -> keeps_plots (for_each xs body).
Proof.
  intro H. induction xs as [| x xs IH]; cbn [for_each].
  - apply keeps_plots_ret.
  - apply keeps_plots_bind; [apply H | intros _; exact IH].
Qed.

Lemma keeps_plots_getitem {A} (l : list A) (i : Z) : keeps_plots (getitem l i).
Proof.
  unfold getitem. destruct (norm_index l i) as [k |].
  - destruct (nth_error l k); [apply keeps_plots_ret | apply keeps_plots_raise].
  - apply keeps_plots_raise.
Qed.

Lemma keeps_plots_standard_normal : keeps_plots standard_normal.
Proof. intro w. split; reflexivity. Qed.

Lemma keeps_plots_returns_at (j i : Z) : keeps_plots (returns_at j i).
Proof.
  apply keeps_plots_bind.
  - apply keeps_plots_bind; [apply keeps_plots_gets | intro; apply keeps_plots_getitem].
  - intro. apply keeps_plots_getitem.
Qed.

Lemma keeps_plots_returns_row_append (j : Z) (x : float64) :
  keeps_plots (returns_row_append j x).
Proof.
  apply keeps_plots_bind; [apply keeps_plots_gets | intro rs].
  destruct (norm_index rs j) as [k |]; [| apply keeps_plots_raise].
  destruct (nth_error rs k); [| apply keeps_plots_raise].
  apply keeps_plots_modify. intro w. split; reflexivity.
Qed.

Lemma keeps_plots_py_div_int a b : keeps_plots (py_div_int a b).
Proof.
  unfold py_div_int.
  destruct (b =? 0)%Z; [apply keeps_plots_raise | apply keeps_plots_ret].
Qed.

Lemma keeps_plots_py_div_float a b : keeps_plots (py_div_float a b).
Proof.
  unfold py_div_float.
  destruct (b =? 0)%Z; [apply keeps_plots_raise | apply keeps_plots_ret].
Qed.

(** X13: the non-plotting simulator never touches the figures: for every
    contract and every [path_count], and whether it returns or raises, the
    figure under construction and the figures shown are those it found. *)
Theorem noplot_never_plots (pc : Z) :
  keeps_plots (day_by_day_price_simulation_noplot pc).
Proof.
  unfold day_by_day_price_simulation_noplot. cbv zeta.
  repeat first
    [ apply keeps_plots_ret
    | apply keeps_plots_attr
    | apply keeps_plots_standard_normal
    | apply keeps_plots_returns_at
    | apply keeps_plots_returns_row_append
    | apply keeps_plots_py_div_int
    | apply keeps_plots_py_div_float
    | apply keeps_plots_gets
    | apply keeps_plots_modify; intro; split; reflexivity
    | apply keeps_plots_for_each; intro
    | apply keeps_plots_bind; [| intro] ].
Qed.

(** ** Truncation, not floor *)

(** X14: [int(time * 252)] truncates towards zero, so every [time_left]
    with [-1 < time_left * 252 < 1], the negative ones included, gives
    [step_num = 0] and a zero-division error in both simulators before any
    state is written. *)
Theorem tiny_time_raises_zero_division (pc : Z) (w : world) :
  -1 < time_left (opt w) * 252 < 1 ->
  py_int (time_left (opt w) * 252) = 0%Z
  /\ day_by_day_price_simulation pc w = (Raise ZeroDivisionError, w)
  /\ day_by_day_price_simulation_noplot pc w = (Raise ZeroDivisionError, w).
Proof.
  intro H.
  assert (E : py_int (time_left (opt w) * 252) = 0%Z).
  { unfold py_int. destruct (Rle_dec 0 (time_left (opt w) * 252)) as [P | N].
    - symmetry. apply Int_part_spec. cbn. lra.
    - replace (Int_part (- (time_left (opt w) * 252))) with 0%Z; [reflexivity |].
      apply Int_part_spec. cbn. lra. }
  split; [exact E |]. split.
  - unfold day_by_day_price_simulation. do 5 run_prim. cbv zeta. rewrite E.
    apply bind_raise. reflexivity.
  - unfold day_by_day_price_simulation_noplot. do 5 run_prim. cbv zeta. rewrite E.
    apply bind_raise. reflexivity.
Qed.

Lemma tiny_time_raises_zero_division_witness :
  day_by_day_price_simulation_noplot 100
    (start (Build_option_attributes 1200 1220 0.0014 0.2121 (-0.001)) no_noise)
  = (Raise ZeroDivisionError,
     start (Build_option_attributes 1200 1220 0.0014 0.2121 (-0.001)) no_noise).
Proof.
  apply (tiny_time_raises_zero_division 100
           (start (Build_option_attributes 1200 1220 0.0014 0.2121 (-0.001))
                  no_noise)).
  cbn [opt start time_left]. lra.
Defined.

(** ** The figures *)

Lemma firstn_snoc {A} (l : list A) (k : nat) (x : A) :
  nth_error l k = Some x -> firstn (S k) l = firstn k l ++ [x].
Proof.
  revert k. induction l as [| y l IH]; intros [| k] H; cbn in H |- *;
    try discriminate.
  - injection H as ->. reflexivity.
  - f_equal. apply IH. exact H.
Qed.

Lemma decorate_stage (c : plot_cmd) w0 F Sh w :
  at_stage w0 F Sh w ->
  exists w1, plt_decorate c w = (Ok tt, w1) /\ at_stage w0 (F ++ [c]) Sh w1.
Proof.
  intros (Hc & HF & HS). eexists. split; [reflexivity |].
  split; [exact Hc |]. fields. rewrite HF, HS. split; reflexivity.
Qed.

Lemma show_stage w0 F Sh w :
  at_stage w0 F Sh w ->
  exists w1, plt_show w = (Ok tt, w1) /\ at_stage w0 [] (Sh ++ [F]) w1.
Proof.
  intros (Hc & HF & HS). eexists. split; [reflexivity |].
  split; [exact Hc |]. fields. rewrite HF, HS. split; reflexivity.
Qed.

Lemma plot_stage xs ys c w0 F Sh w :
  length xs = length ys -> at_stage w0 F Sh w ->
  exists w1, plt_plot xs ys c w = (Ok tt, w1)
             /\ at_stage w0 (F ++ [Line xs ys c]) Sh w1.
Proof.
  intros E (Hc & HF & HS). unfold plt_plot. rewrite E, Nat.eqb_refl.
  eexists. split; [reflexivity |].
  split; [exact Hc |]. fields. rewrite HF, HS. split; reflexivity.
Qed.

Lemma reset_avg_list_stage w0 F Sh w :
  at_stage w0 F Sh w ->
  exists w1, modify (set_avg_list []) w = (Ok tt, w1) /\ at_stage w0 F Sh w1.
Proof.
  intros (Hc & HF & HS). eexists. split; [reflexivity |].
  split; [exact Hc |]. fields. split; assumption.
Qed.

(** The loop of the averages (lines 76-82) draws nothing. *)
Lemma averages_loop_stage
    (rs : list (list float64)) (xs : list Z) (hi pc : Z) w0 F Sh w :
  (forall k row, nth_error rs k = Some row -> length row = length xs) ->
  returns w = rs -> Z.to_nat (hi - 0) = length xs -> Z.to_nat (pc - 0) = length rs ->
  at_stage w0 F Sh w ->
  exists w1,
    for_each (range 0 hi) (fun i =>
      modify (set_full_at_ind []) ;;;
      for_each (range 0 pc) (fun j =>
        x <- returns_at j i ;;
        full_at_ind_append x) ;;;
      full <- gets full_at_ind ;;
      avg_list_append (np_mean full)) w = (Ok tt, w1)
    /\ at_stage w0 F Sh w1.
Proof.
  intros Hwide Hr Hhi Hpc (Hc & HF & HS).
  destruct (averages_loop rs xs Hwide hi pc w Hr Hhi Hpc) as (w1 & Hrun & Hc1).
  exists w1. split; [exact Hrun |].
  split; [exact (same_core_trans _ _ _ Hc Hc1) |].
  match type of Hrun with
  | ?loop w = _ =>
      assert (K : keeps_plots loop)
  end.
  { apply keeps_plots_for_each. intro i.
    repeat first
      [ apply keeps_plots_returns_at
      | apply keeps_plots_gets
      | apply keeps_plots_modify; intro; split; reflexivity
      | apply keeps_plots_for_each; intro
      | apply keeps_plots_bind; [| intro] ]. }
  destruct (K w) as [K1 K2]. rewrite Hrun in K1, K2. cbn [snd] in K1, K2.
  split; congruence.
Qed.

(** The loop that draws the first [count] paths (lines 83-84) adds one line
    for each of them, in order. *)
Lemma draw_paths_loop_stage
    (rs : list (list float64)) (xs : list Z) (count : nat) w0 F Sh w :
  (forall k row, nth_error rs k = Some row -> length row = length xs) ->
  returns w = rs -> (count <= length rs)%nat ->
  at_stage w0 F Sh w ->
  exists w1,
    for_each (range_from 0 count) (fun j =>
      row <- returns_row j ;;
      plt_plot xs row None) w = (Ok tt, w1)
    /\ at_stage w0 (F ++ map (fun row => Line xs row None) (firstn count rs)) Sh w1.
Proof.
  intros Hwide Hr Hcount Hst.
  match goal with
  | |- exists w1, for_each ?l ?body w = _ /\ _ =>
      destruct (for_each_ok
                  (fun k w1 =>
                     returns w1 = rs /\
                     at_stage w0 (F ++ map (fun row => Line xs row None) (firstn k rs))
                              Sh w1)
                  l body w) as (w1 & Hrun & Hend)
  end.
  - split; [exact Hr |]. cbn [firstn map]. rewrite app_nil_r. exact Hst.
  - intros k j w1 Hj (Hr1 & Hst1).
    apply range_from_nth_inv in Hj. destruct Hj as [Hk ->]. rewrite Z.add_0_l.
    destruct (nth_error rs k) as [row |] eqn:Hrow.
    2: { apply nth_error_None in Hrow. lia. }
    destruct (plot_stage xs row None w0 _ Sh w1
                (eq_sym (Hwide k row Hrow)) Hst1) as (w2 & Hp & Hst2).
    exists w2. split.
    + eapply eq_trans.
      { apply bind_ok. apply (returns_row_nth k row). rewrite Hr1. exact Hrow. }
      exact Hp.
    + split.
      * destruct Hst2 as ((_ & _ & _ & R2 & _) & _).
        destruct Hst1 as ((_ & _ & _ & R1 & _) & _). congruence.
      * rewrite (firstn_snoc rs k row Hrow), map_app, app_assoc. exact Hst2.
  - exists w1. split; [exact Hrun |].
    rewrite range_from_length in Hend. apply Hend.
Qed.

Ltac stage_step L :=
  match goal with
  | Hc : at_stage ?W0 _ _ ?wc |- outcome _ ?wc _ _ =>
      eapply (outcome_bind_ex (at_stage W0 _ _));
      [ apply L; try exact Hc
      | clear dependent wc;
        let w1 := fresh "wc" in let H1 := fresh "Hcur" in
        intros w1 H1; cbv beta ]
  end.

(** The plotting simulator from ten trials on: the price, the paths and
    payoffs, and the figures. *)
Lemma plot_run_figures (pc : Z) (w : world) :
  (1 <= step_count (opt w))%Z -> (10 <= pc)%Z ->
  let o := opt w in
  let n := Z.to_nat (step_count o) in
  let eps := draw (gen w) (drawn w) n in
  let x_ax := range 0 (step_count o + 1) in
  let paths := map (fun j => map Fin (path_of o eps j)) (seq 0 (Z.to_nat pc)) in
  let line := fun row => Line x_ax row None in
  outcome (day_by_day_price_simulation pc) w
    (Ok (Fin (discounted_mean_payoff o eps (Z.to_nat pc))))
    (fun w1 =>
       same_core
         (set_final_value (map Fin (payoffs_of o eps (Z.to_nat pc)))
            (set_returns paths (set_drawn (drawn w + Z.to_nat pc * n)%nat w)))
         w1
       /\ figure w1 = []
       /\ shown w1 = shown w ++
            [ figure w ++ map line paths ++ labels "Paths of All Simulations";
              Line x_ax (map Fin (path_of o eps 4)) (Some "black"%string)
                :: labels "Path of Single Simulation";
              map line (firstn 10 paths) ++ labels "Path of Ten Simulations" ]).
Proof.
  intros Hsteps Hten o n eps x_ax paths line.
  assert (Hpc : (1 <= pc)%Z) by lia.
  unfold day_by_day_price_simulation.
  do 5 ostep. cbv zeta.
  rewrite (step_num_is_step_count (opt w)) by lia.
  unfold py_div_int at 1.
  destruct (Z.eqb_spec (step_count (opt w)) 0) as [E | _]; [lia |].
  do 3 ostep.
  unfold range at 1. rewrite Z.sub_0_r.
  eapply outcome_bind_ok.
  { apply (trials_loop_plot (opt w) (gen w) (drawn w) Hsteps (Z.to_nat pc));
      reflexivity. }
  cbv beta.
  match goal with |- outcome _ ?W _ _ => remember W as W0 eqn:EW0 end.
  assert (C0 : same_core
                 (set_final_value (map Fin (payoffs_of o eps (Z.to_nat pc)))
                    (set_returns paths
                       (set_drawn (drawn w + Z.to_nat pc * n)%nat w)))
                 W0).
  { rewrite EW0. unfold same_core. fields. repeat split. }
  assert (C1 : opt W0 = opt w) by (rewrite EW0; reflexivity).
  assert (C4 : returns W0 = paths) by (rewrite EW0; reflexivity).
  assert (C5 : final_value W0 = map Fin (payoffs_of o eps (Z.to_nat pc)))
    by (rewrite EW0; reflexivity).
  assert (CF : figure W0 = figure w ++ map line paths) by (rewrite EW0; reflexivity).
  assert (CS : shown W0 = shown w) by (rewrite EW0; reflexivity).
  clear EW0.
  assert (Hret : forall F Sh wc, at_stage W0 F Sh wc -> returns wc = paths).
  { intros F Sh wc ((_ & _ & _ & R & _) & _). congruence. }
  assert (Hlen : length paths = Z.to_nat pc)
    by (unfold paths; rewrite length_map, length_seq; reflexivity).
  assert (Hwide : forall k row,
            nth_error paths k = Some row -> length row = length x_ax).
  { intros k row Hk. unfold x_ax, o. rewrite (x_ax_length (opt w) Hsteps).
    unfold paths in Hk. rewrite nth_error_map in Hk.
    destruct (nth_error (seq 0 (Z.to_nat pc)) k) as [j |]; [| discriminate].
    injection Hk as <-. apply path_length. }
  assert (Hcur : at_stage W0 (figure w ++ map line paths) (shown w) W0).
  { split; [apply same_core_refl | split; assumption]. }
  revert Hcur. generalize W0 at 2 3. intros wc Hcur.
  do 3 stage_step decorate_stage. stage_step show_stage.
  assert (Hrow4 : nth_error paths 4 = Some (map Fin (path_of o eps 4))).
  { apply rows_nth. lia. }
  eapply outcome_bind_ok.
  { apply (returns_row_nth 4 (map Fin (path_of o eps 4))).
    rewrite (Hret _ _ _ Hcur). exact Hrow4. }
  cbv beta.
  stage_step plot_stage.
  { symmetry. apply (Hwide 4%nat). exact Hrow4. }
  do 3 stage_step decorate_stage. stage_step show_stage.
  stage_step reset_avg_list_stage.
  stage_step (averages_loop_stage paths x_ax).
  { exact Hwide. }
  { apply (Hret _ _ _ Hcur). }
  { unfold x_ax, range. rewrite range_from_length. reflexivity. }
  { rewrite Hlen, Z.sub_0_r. reflexivity. }
  change (range 0 10) with (range_from 0 10).
  stage_step (draw_paths_loop_stage paths x_ax 10).
  { exact Hwide. }
  { apply (Hret _ _ _ Hcur). }
  { rewrite Hlen. lia. }
  do 3 stage_step decorate_stage. stage_step show_stage.
  do 3 ostep.
  assert (Hcore := proj1 Hcur).
  destruct Hcur as ((A1 & _ & _ & _ & A5) & HF & HS).
  rewrite A5, C5, py_sum_Fin.
  eapply outcome_bind_ok.
  { apply average_Fin. exact Hpc. }
  cbv beta. apply outcome_ret.
  - rewrite A1, C1. cbn [fmul].
    unfold discounted_mean_payoff, mean. rewrite payoffs_length. reflexivity.
  - split; [exact (same_core_trans _ _ _ C0 Hcore) |].
    split; [exact HF |]. rewrite HS. unfold labels.
    rewrite <- !app_assoc. reflexivity.
Qed.

(** X15: from ten trials on, the plotting simulator shows three figures
    and leaves none open: first every path with the labels of "Paths of All
    Simulations" (after whatever was already drawn on the open figure),
    then the path of index 4 in black, then the paths of indexes 0 to 9;
    every line is drawn against the days [0 .. step_count]. *)
Theorem plotting_shows_three_figures (pc : Z) (w : world) :
  (1 <= step_count (opt w))%Z -> (10 <= pc)%Z ->
  let o := opt w in
  let n := Z.to_nat (step_count o) in
  let eps := draw (gen w) (drawn w) n in
  let x_ax := range 0 (step_count o + 1) in
  let paths := map (fun j => map Fin (path_of o eps j)) (seq 0 (Z.to_nat pc)) in
  let line := fun row => Line x_ax row None in
  let w' := snd (day_by_day_price_simulation pc w) in
  figure w' = []
  /\ shown w' = shown w ++
       [ figure w ++ map line paths ++ labels "Paths of All Simulations";
         Line x_ax (map Fin (path_of o eps 4)) (Some "black"%string)
           :: labels "Path of Single Simulation";
         map line (firstn 10 paths) ++ labels "Path of Ten Simulations" ].
Proof.
  intros Hsteps Hten o n eps x_ax paths line w'.
  destruct (plot_run_figures pc w Hsteps Hten) as (w1 & Hrun & _ & HF & HS).
  unfold w'. rewrite Hrun. split; [exact HF | exact HS].
Qed.

Lemma plotting_shows_three_figures_witness :
  length (shown (snd (day_by_day_price_simulation 10
                        (start sample_option no_noise)))) = 3%nat.
Proof.
  destruct (plotting_shows_three_figures 10 (start sample_option no_noise))
    as [_ H].
  - cbn [opt start]. rewrite sample_steps. lia.
  - lia.
  - rewrite H. reflexivity.
Defined.

(** ** The script, run *)

Lemma pbind_ok {A B} (m : P A) (k : A -> P B) s a s1 :
  m s = (Ok a, s1) -> pbind m k s = k a s1.
Proof. unfold pbind. intros ->. reflexivity. Qed.

Lemma lift_ok {A} (m : M A) (w : world) out d a w1 :
  m w = (Ok a, w1) ->
  lift m (Build_session w out d) = (Ok a, Build_session w1 out d).
Proof. unfold lift. cbn [heap stdout opt_price_diff]. intros ->. reflexivity. Qed.

Lemma pfor_each_ok {A} (I : nat -> session -> Prop) (xs : list A) body :
  forall s,
    I O s ->
    (forall k x s1, nth_error xs k = Some x -> I k s1 ->
                    exists s2, body x s1 = (Ok tt, s2) /\ I (S k) s2) ->
    exists s', pfor_each xs body s = (Ok tt, s') /\ I (length xs) s'.
Proof.
  revert I. induction xs as [| x xs IH]; intros I s H0 Hstep; cbn [pfor_each length].
  - exists s. split; [reflexivity | exact H0].
  - destruct (Hstep O x s eq_refl H0) as (s2 & Hb & H1).
    destruct (IH (fun k => I (S k)) s2 H1) as (s' & Hr & Hend).
    { intros k y s1 Hy Hk. apply (Hstep (S k) y s1 Hy Hk). }
    exists s'. split; [| exact Hend].
    rewrite (pbind_ok _ _ _ _ _ Hb). exact Hr.
Qed.

Lemma test_days :
  days_between (Build_date 2014 7 3) (Build_date 2014 5 5) = 59%Z.
Proof. reflexivity. Qed.

Lemma test_time : time_left test_option = 59 / 365.
Proof. unfold test_option. cbn [time_left]. rewrite test_days. reflexivity. Qed.

Lemma test_steps : step_count test_option = 40%Z.
Proof.
  unfold step_count. rewrite test_time. symmetry. apply Int_part_spec. lra.
Qed.

Lemma test_price (w : world) :
  opt w = test_option ->
  option_price_formula_bs w = (Ok (Fin (black_scholes_call test_option)), w).
Proof.
  intro H. rewrite bs_eval by (rewrite H; cbn [test_option strike_price]; lra).
  rewrite H. rewrite bs_float_closed_form; [reflexivity | | | |];
    try (cbn [test_option underlying_price strike_price vol]; lra).
  rewrite test_time. lra.
Qed.

Lemma Zsum_snoc (l : list Z) (x : Z) : Zsum (l ++ [x]) = (Zsum l + x)%Z.
Proof.
  induction l as [| y l IH]; cbn [app Zsum fold_right].
  - lia.
  - fold (Zsum (l ++ [x])). fold (Zsum l). lia.
Qed.

Lemma path_counts_positive : Forall (fun k => (1 <= k)%Z) path_count_list.
Proof. unfold path_count_list. repeat constructor; lia. Qed.

(** The sweep of lines 168-169: one run of the non-plotting simulator per
    path count, each continuing the draws of the one before. *)
Lemma sweep_loop (g : nat -> R) (D : Z) (Fg : list plot_cmd)
    (Sh : list (list plot_cmd)) (out : list printed) (bs_price : R) (s : session) :
  opt (heap s) = test_option -> gen (heap s) = g ->
  Z.of_nat (drawn (heap s)) = D ->
  figure (heap s) = Fg -> shown (heap s) = Sh ->
  stdout s = out -> opt_price_diff s = [] ->
  exists s',
    pfor_each path_count_list (fun k =>
      pbind (lift (day_by_day_price_simulation_noplot k))
            (fun p => opt_price_diff_append (fsub p (Fin bs_price)))) s
    = (Ok tt, s')
    /\ opt (heap s') = test_option /\ gen (heap s') = g
    /\ Z.of_nat (drawn (heap s')) = (D + 40 * Zsum path_count_list)%Z
    /\ figure (heap s') = Fg /\ shown (heap s') = Sh
    /\ stdout s' = out
    /\ length (opt_price_diff s') = length path_count_list
    /\ Forall finite (opt_price_diff s').
Proof.
  intros Ho Hg Hd Hf Hs Hout Hdiff.
  match goal with
  | |- exists s', pfor_each ?l ?body s = _ /\ _ =>
      destruct (pfor_each_ok
                  (fun k s1 =>
                     opt (heap s1) = test_option /\ gen (heap s1) = g
                     /\ Z.of_nat (drawn (heap s1))
                        = (D + 40 * Zsum (firstn k path_count_list))%Z
                     /\ figure (heap s1) = Fg /\ shown (heap s1) = Sh
                     /\ stdout s1 = out
                     /\ length (opt_price_diff s1) = k
                     /\ Forall finite (opt_price_diff s1))
                  l body s) as (s' & Hrun & Hend)
  end.
  - rewrite Hdiff. cbn [firstn Zsum fold_right length].
    repeat split; try assumption; [lia | constructor].
  - intros k x [w1 out1 d1] Hx (I1 & I2 & I3 & I4 & I5 & I6 & I7 & I8).
    cbn [heap stdout opt_price_diff] in *.
    assert (Hpos : (1 <= x)%Z).
    { apply (proj1 (Forall_forall _ _) path_counts_positive).
      apply nth_error_In with k. exact Hx. }
    assert (Hsteps : (1 <= step_count (opt w1))%Z)
      by (rewrite I1, test_steps; lia).
    eexists. split.
    + eapply eq_trans.
      { apply pbind_ok. apply lift_ok. apply (noplot_run x w1 Hsteps Hpos). }
      reflexivity.
    + cbn [heap stdout opt_price_diff]. fields.
      rewrite (firstn_snoc _ _ _ Hx), Zsum_snoc, I1, test_steps.
      change (Z.to_nat 40) with 40%nat.
      repeat split; try assumption.
      * lia.
      * rewrite length_app, I7. cbn [length]. lia.
      * apply Forall_app. split; [exact I8 |].
        constructor; [| constructor]. eexists. reflexivity.
  - exists s'. split; [exact Hrun |].
    destruct Hend as (I1 & I2 & I3 & I4 & I5 & I6 & I7 & I8).
    rewrite firstn_all in I3. repeat split; assumption.
Qed.

(** X16: the script runs to its end without an exception, whatever the
    generator delivers: the contract has 40 steps; the two prices printed
    are the closed form and the discounted mean payoff of 1000 trials; the
    sweep leaves 18 finite differences; 940000 draws are consumed in all;
    and four figures are shown, none left open. *)
Theorem script_runs_to_completion (w : world) :
  let s0 := Build_session w [] [] in
  exists s',
    script s0 = (Ok tt, s')
    /\ opt (heap s') = test_option
    /\ step_count (opt (heap s')) = 40%Z
    /\ stdout s' =
         [ PStr "Price Returned from Black-Scholes";
           PNum (Fin (black_scholes_call test_option));
           PStr "Price Returned from Computational Simulation";
           PNum (Fin (discounted_mean_payoff test_option
                        (draw (gen w) (drawn w) 40) 1000)) ]
    /\ Z.of_nat (drawn (heap s')) = (Z.of_nat (drawn w) + 940000)%Z
    /\ length (opt_price_diff s') = 18%nat
    /\ Forall finite (opt_price_diff s')
    /\ figure (heap s') = []
    /\ length (shown (heap s')) = (length (shown w) + 4)%nat.
Proof.
  intro s0.
  pose (w1 := set_opt test_option w).
  assert (O1 : opt w1 = test_option) by reflexivity.
  assert (Hst1 : (1 <= step_count (opt w1))%Z) by (rewrite O1, test_steps; lia).
  destruct (plot_run_figures 1000 w1 Hst1 ltac:(lia))
    as (w2 & Hplot & (O2 & G2 & D2 & _ & _) & F2 & S2).
  assert (G1 : gen w1 = gen w) by reflexivity.
  assert (D1 : drawn w1 = drawn w) by reflexivity.
  assert (S1 : shown w1 = shown w) by reflexivity.
  revert Hplot O2 G2 D2 S2. fields. rewrite O1, G1, D1, S1, test_steps.
  change (Z.to_nat 40) with 40%nat. change (Z.to_nat 1000) with 1000%nat.
  intros Hplot O2 G2 D2 S2.
  destruct (sweep_loop (gen w) (Z.of_nat (drawn w) + 40000) [] (shown w2)
              [ PStr "Price Returned from Black-Scholes";
                PNum (Fin (black_scholes_call test_option));
                PStr "Price Returned from Computational Simulation";
                PNum (Fin (discounted_mean_payoff test_option
                             (draw (gen w) (drawn w) 40) 1000)) ]
              (black_scholes_call test_option)
              (Build_session w2
                 [ PStr "Price Returned from Black-Scholes";
                   PNum (Fin (black_scholes_call test_option));
                   PStr "Price Returned from Computational Simulation";
                   PNum (Fin (discounted_mean_payoff test_option
                                (draw (gen w) (drawn w) 40) 1000)) ]
                 []))
    as ([w3 out3 d3] & Hsweep & O3 & G3 & D3 & F3 & S3 & Out3 & L3 & Fin3);
    cbn [heap stdout opt_price_diff] in *;
    try assumption; try reflexivity.
  { rewrite D2. lia. }
  eexists. split.
  - unfold script, s0.
    eapply eq_trans; [apply pbind_ok; apply lift_ok; reflexivity | cbv beta].
    eapply eq_trans; [apply pbind_ok; reflexivity | cbv beta].
    cbn [heap stdout opt_price_diff app].
    eapply eq_trans;
      [apply pbind_ok; apply lift_ok; apply (test_price w1 O1) | cbv beta].
    do 2 (eapply eq_trans; [apply pbind_ok; reflexivity | cbv beta];
          cbn [heap stdout opt_price_diff app]).
    eapply eq_trans; [apply pbind_ok; apply lift_ok; exact Hplot | cbv beta].
    do 2 (eapply eq_trans; [apply pbind_ok; reflexivity | cbv beta];
          cbn [heap stdout opt_price_diff app]).
    eapply eq_trans;
      [apply pbind_ok; apply lift_ok; apply (test_price w2 O2) | cbv beta].
    eapply eq_trans; [apply pbind_ok; exact Hsweep | cbv beta].
    eapply eq_trans; [apply pbind_ok; reflexivity | cbv beta].
    cbn [heap stdout opt_price_diff].
    eapply eq_trans.
    { apply pbind_ok. apply lift_ok. unfold plt_plot.
      rewrite L3. cbn [length Nat.eqb path_count_list]. reflexivity. }
    cbv beta.
    do 3 (eapply eq_trans; [apply pbind_ok; apply lift_ok; reflexivity | cbv beta]).
    apply lift_ok. reflexivity.
  - cbn [heap stdout opt_price_diff]. fields.
    rewrite O3, test_steps, F3, S3, S2, L3. rewrite D3.
    rewrite !length_app. cbn [length path_count_list Zsum fold_right].
    repeat split; try assumption; lia.
Qed.

(** ** The two methods without volatility *)

Lemma forward_in_the_money (S K r T : R) :
  0 < S -> 0 < K ->
  (0 < ln (S / K) + r * T <-> K < S * exp (r * T)).
Proof.
  intros HS HK.
  assert (Hq : 0 < S / K) by (apply Rdiv_lt_0_compat; assumption).
  assert (He : exp (ln (S / K) + r * T) = S / K * exp (r * T)).
  { rewrite exp_plus, exp_ln by exact Hq. reflexivity. }
  assert (Hpos : 0 < exp (r * T)) by apply exp_pos.
  split; intro H.
  - assert (H1 : 1 < exp (ln (S / K) + r * T)).
    { rewrite <- exp_0. apply exp_increasing. exact H. }
    rewrite He in H1.
    apply (Rmult_lt_compat_l K) in H1; [| exact HK].
    replace (K * (S / K * exp (r * T))) with (S * exp (r * T)) in H1
      by (field; lra).
    lra.
  - apply exp_lt_inv. rewrite exp_0, He.
    apply (Rmult_lt_reg_l K); [exact HK |].
    replace (K * (S / K * exp (r * T))) with (S * exp (r * T)) by (field; lra).
    lra.
Qed.

(** X17: without volatility the two methods agree: for a contract of
    positive prices with [vol = 0], at least one step and at least one
    trial, and [ln(S/K) + r T] other than zero, the closed formula and the
    simulation return the same number, [max(S - K e^(-rT), 0)]. *)
Theorem methods_agree_without_volatility (pc : Z) (w : world) :
  (1 <= step_count (opt w))%Z -> (1 <= pc)%Z ->
  0 < underlying_price (opt w) -> 0 < strike_price (opt w) ->
  vol (opt w) = 0 ->
  ln (underlying_price (opt w) / strike_price (opt w))
  + risk_free_rate (opt w) * time_left (opt w) <> 0 ->
  let price :=
    Rmax (underlying_price (opt w)
          - strike_price (opt w)
            * exp (- risk_free_rate (opt w) * time_left (opt w))) 0 in
  fst (day_by_day_price_simulation_noplot pc w) = Ok (Fin price)
  /\ option_price_formula_bs w = (Ok (Fin price), w).
Proof.
  intros Hsteps Hpc HS HK Hvol Ha price.
  assert (HT : 0 <= time_left (opt w)).
  { apply Rmult_le_reg_r with 252; [lra |]. rewrite Rmult_0_l.
    apply Int_part_nonneg. unfold step_count in Hsteps. lia. }
  assert (Hfw := forward_in_the_money _ _ (risk_free_rate (opt w))
                   (time_left (opt w)) HS HK).
  assert (Hexp : exp (- risk_free_rate (opt w) * time_left (opt w))
                 * exp (risk_free_rate (opt w) * time_left (opt w)) = 1).
  { rewrite <- exp_plus, <- exp_0. f_equal. ring. }
  assert (Hd : 0 < exp (- risk_free_rate (opt w) * time_left (opt w)))
    by apply exp_pos.
  split.
  - rewrite (noplot_without_volatility pc w Hsteps Hpc Hvol). do 2 f_equal.
    unfold price, Rmax.
    destruct (Rle_dec (underlying_price (opt w)
                       * exp (risk_free_rate (opt w) * time_left (opt w))
                       - strike_price (opt w)) 0) as [L | G];
      destruct (Rle_dec (underlying_price (opt w)
                         - strike_price (opt w)
                           * exp (- risk_free_rate (opt w) * time_left (opt w))) 0)
        as [L' | G']; try nra.
  - rewrite bs_eval by lra.
    rewrite (bs_float_degenerate (opt w) HS HK) by (try lra; left; exact Hvol).
    destruct (Req_dec_T _ 0) as [E | _]; [contradiction |].
    destruct (Rlt_dec 0 _) as [P | NP].
    + apply Hfw in P. do 3 f_equal. unfold price. rewrite Rmax_left; [reflexivity |].
      nra.
    + do 3 f_equal. unfold price. rewrite Rmax_right; [reflexivity |].
      assert (~ strike_price (opt w)
                < underlying_price (opt w)
                  * exp (risk_free_rate (opt w) * time_left (opt w)))
        by (intro C; apply NP, Hfw, C).
      nra.
Qed.

Lemma methods_agree_without_volatility_witness :
  exists price,
    fst (day_by_day_price_simulation_noplot 5
           (start (Build_option_attributes 1200 1220 0 0 0.1616) no_noise))
    = Ok (Fin price)
    /\ option_price_formula_bs
         (start (Build_option_attributes 1200 1220 0 0 0.1616) no_noise)
       = (Ok (Fin price),
          start (Build_option_attributes 1200 1220 0 0 0.1616) no_noise).
Proof.
  eexists.
  apply (methods_agree_without_volatility 5
           (start (Build_option_attributes 1200 1220 0 0 0.1616) no_noise)).
  - cbn [opt start]. unfold step_count. cbn [time_left].
    replace (Int_part (0.1616 * 252)) with 40%Z; [lia |].
    apply Int_part_spec. lra.
  - lia.
  - cbn [opt start underlying_price]. lra.
  - cbn [opt start strike_price]. lra.
  - reflexivity.
  - cbn [opt start underlying_price strike_price risk_free_rate time_left].
    generalize sample_moneyness. lra.
Defined.
